(** * The SENSEX expiry downloader: fetch, retry, aggregate, upload

    A shallow embedding of the pipeline of [sensex_expiry_downloader.py]:
    [get_candles_with_retry], [download_symbol], the result loop of [main]
    over [ThreadPoolExecutor.map], and [send_zip_to_telegram].

    Conventions.  Python values are modelled by the part of them the code
    inspects; an exception is an explicit constructor of the result type;
    the calls the code makes to the outside world (the data source, the
    clock, the file system, the upload endpoint) are answered by an
    environment passed as an argument and are recorded in a trace. *)

From stdpp Require Import base list strings pretty gmap.
From Stdlib Require Import ZArith Lia QArith Ascii.

Local Open Scope string_scope.
Local Open Scope list_scope.
Local Open Scope nat_scope.

(** ** Configuration (lines 69-71) *)

Definition MAX_RETRIES : nat := 3.
Definition MAX_WORKERS : nat := 3.

(** ** Python values *)

(** [bytes]; its truth value is non-emptiness. *)
Definition bytes := list Byte.byte.

Definition truthy_bytes (b : option bytes) : bool :=
  match b with
  | Some (_ :: _) => true
  | _ => false
  end.

(** One field of a candle row as it is decoded from JSON. *)
Inductive cell :=
  | CStr (s : string)
  | CNum (z : Z)
  | CNull.

(** What [r.get("data")] evaluates to: [None] (also for a missing key), or
    a list of rows. *)
Inductive pydata :=
  | DataNone
  | DataRows (rows : list (list cell)).

Definition truthy_data (d : pydata) : bool :=
  match d with
  | DataRows (_ :: _) => true
  | _ => false
  end.

(** A dict answered by [getCandleData]: [status] is the truth value of
    [r.get("status")], [data] is [r.get("data")]. *)
Record response := Response { status : bool; data : pydata }.

(** One call of [smart.getCandleData(params)]: it raises, or it returns a
    falsy value ([None], an empty dict), or it returns a dict. *)
Inductive reply :=
  | Raises
  | Returns (r : option response).

Record params := Params {
  exchange : string;
  symboltoken : string;
  interval : string;
  fromdate : string;
  todate : string
}.

(** The data source as one task sees it: the reply to the [i]-th call
    (counted from 0) made with given parameters. *)
Definition SmartConnect := params → nat → reply.

(** A row of the filtered symbol master. *)
Record row := Row { TradingSymbol : string; Token : Z }.

(** Calls to the outside world made while one task runs. *)
Inductive event :=
  | getCandleData (p : params) (i : nat)
  | sleep (seconds : nat).

(** ** [get_candles_with_retry] (lines 234-243) *)

(** The body of [for i in range(MAX_RETRIES)], over the remaining indices.
    Both the [except:] branch and the fall-through after a reply that is
    falsy or has a falsy status sleep [(i + 1) * 5] seconds. *)
Fixpoint retry_loop (smart : SmartConnect) (p : params) (range : list nat)
  : option response * list event :=
  match range with
  | [] => (None, [])
  | i :: range' =>
    match smart p i with
    | Returns (Some r) =>
      if status r then (Some r, [getCandleData p i])
      else
        let '(res, tr) := retry_loop smart p range' in
        (res, getCandleData p i :: sleep ((i + 1) * 5) :: tr)
    | Returns None | Raises =>
      let '(res, tr) := retry_loop smart p range' in
      (res, getCandleData p i :: sleep ((i + 1) * 5) :: tr)
    end
  end.

Definition get_candles_with_retry (smart : SmartConnect) (p : params)
  : option response * list event :=
  retry_loop smart p (seq 0 MAX_RETRIES).

(** ** [download_symbol] (lines 246-271) *)

(** [pd.DataFrame(rows, columns=...)] on a list of lists: pandas lays the
    rows out in a table as wide as the longest row, filling short rows with
    missing values, and raises [ValueError] ("6 columns passed, passed data
    had 5 columns") when that width is not the number of column names. *)
Definition frame := list (list cell).

Definition content_width (rows : list (list cell)) : nat :=
  foldr (λ r w, length r `max` w) 0 rows.

Definition pad_row (w : nat) (r : list cell) : list cell :=
  r ++ replicate (w - length r) CNull.

Definition DataFrame (rows : list (list cell)) (columns : list string)
  : option frame :=
  if decide (content_width rows = length columns)
  then Some (pad_row (length columns) <$> rows)
  else None.

Definition candle_columns : list string :=
  ["Date"; "Open"; "High"; "Low"; "Close"; "Volume"].

(** Exceptions the pipeline can meet.  All but [KeyboardInterrupt] derive
    from [Exception]. *)
Inductive exn :=
  | ValueError
  | OSError
  | HTTPError
  | ConnectionError
  | RetryError
  | KeyboardInterrupt.

Definition is_Exception (e : exn) : bool :=
  match e with
  | KeyboardInterrupt => false
  | _ => true
  end.

(** The value a call evaluates to, or the exception it raised. *)
Inductive result (A : Type) :=
  | Returned (a : A)
  | Raised (e : exn).
Arguments Returned {A} a.
Arguments Raised {A} e.

(** The triple [(symbol, data, err)]. *)
Definition outcome : Type := string * option bytes * option string.

Section Pipeline.

(** Lines 265-269: [pd.to_datetime] on the date column, then the frame
    written through [pd.ExcelWriter(buf, engine="openpyxl")] and
    [buf.getvalue()].  This is pandas and openpyxl, not code of the
    repository; it yields the bytes of the workbook or raises. *)
Variable to_excel : frame → result bytes.

Definition candle_params (r : row) (FROM TO : string) : params :=
  {| exchange := "BFO";
     symboltoken := pretty (Token r);
     interval := "ONE_MINUTE";
     fromdate := FROM;
     todate := TO |}.

Definition download_symbol (args : SmartConnect * row * string * string)
  : result outcome * list event :=
  let '(smart, r, FROM, TO) := args in
  let symbol := TradingSymbol r in
  let p := candle_params r FROM TO in
  let '(resp, tr) := get_candles_with_retry smart p in
  match resp with
  | Some rsp =>
    match data rsp with
    | DataRows ((_ :: _) as rows) =>
      match DataFrame rows candle_columns with
      | Some df =>
        match to_excel df with
        | Returned xlsx => (Returned (symbol, Some xlsx, None), tr)
        | Raised e => (Raised e, tr)
        end
      | None => (Raised ValueError, tr)
      end
    | _ => (Returned (symbol, None, Some "No data"), tr)
    end
  | None => (Returned (symbol, None, Some "No data"), tr)
  end.

(** ** The result loop of [main] (lines 296-310) *)

(** The module globals of lines 81-83 and the archive [zip_buf], as its
    list of entries (name, content) in the order they were written. *)
Record RunState := {
  success_list : list string;
  failed_list : list string;
  failed_details : list (string * option string);
  zip_buf : list (string * bytes)
}.

(** Lines 81-83 and 296-298: empty lists, an archive with no entry. *)
Definition initial_state : RunState :=
  {| success_list := []; failed_list := []; failed_details := [];
     zip_buf := [] |}.

(** [zf.writestr(f"{symbol}.xlsx", data)] on the archive reopened in
    append mode. *)
Definition writestr (symbol : string) (content : bytes) (st : RunState)
  : RunState :=
  {| success_list := success_list st; failed_list := failed_list st;
     failed_details := failed_details st;
     zip_buf := zip_buf st ++ [(symbol +:+ ".xlsx", content)] |}.

Definition success_append (symbol : string) (st : RunState) : RunState :=
  {| success_list := success_list st ++ [symbol];
     failed_list := failed_list st;
     failed_details := failed_details st; zip_buf := zip_buf st |}.

Definition failed_append (symbol : string) (st : RunState) : RunState :=
  {| success_list := success_list st;
     failed_list := failed_list st ++ [symbol];
     failed_details := failed_details st; zip_buf := zip_buf st |}.

Definition details_append (symbol : string) (err : option string)
  (st : RunState) : RunState :=
  {| success_list := success_list st; failed_list := failed_list st;
     failed_details := failed_details st ++ [(symbol, err)];
     zip_buf := zip_buf st |}.

(** The body of the [for] loop, lines 304-310. *)
Definition record_outcome (o : outcome) (st : RunState) : RunState :=
  let '(symbol, data, err) := o in
  if truthy_bytes data
  then success_append symbol (writestr symbol (default [] data) st)
  else details_append symbol err (failed_append symbol st).

(** How the [for] loop over [ex.map(...)] ends. *)
Inductive loop_exit :=
  | LoopDone
  | LoopRaised (e : exn).

(** [Executor.map] yields the results in the order of its arguments and
    re-raises, at its place in that order, the exception of a call that
    raised.  The loop consumes them one by one. *)
Fixpoint result_loop (results : list (result outcome)) (st : RunState)
  : RunState * loop_exit :=
  match results with
  | [] => (st, LoopDone)
  | Returned o :: results' => result_loop results' (record_outcome o st)
  | Raised e :: _ => (st, LoopRaised e)
  end.

(** Line 300. *)
Definition make_args (smart : SmartConnect) (rows : list row)
  (FROM TO : string) : list (SmartConnect * row * string * string) :=
  (λ r, (smart, r, FROM, TO)) <$> rows.

Definition map_download (args : list (SmartConnect * row * string * string))
  : list (result outcome) :=
  (λ a, (download_symbol a).1) <$> args.

(** Lines 296-310 run from the initial globals. *)
Definition pipeline_loop (smart : SmartConnect) (rows : list row)
  (FROM TO : string) : RunState * loop_exit :=
  result_loop (map_download (make_args smart rows FROM TO)) initial_state.

End Pipeline.

(** ** The retry policy of the upload

    [send_zip_to_telegram] mounts [HTTPAdapter(max_retries=retries)] with
    [retries = Retry(total=5, backoff_factor=2, status_forcelist=[...])].
    [Retry] is urllib3's class, not code of the repository; the module
    below follows the behaviour urllib3 documents for the parameters the
    source sets and for the defaults it leaves in place. *)
Module urllib3.

Record Retry := {
  total : nat;
  backoff_factor : nat;
  status_forcelist : list nat;
  allowed_methods : list string;
  backoff_max : nat;
  respect_retry_after_header : bool;
  (** number of consecutive failed attempts recorded so far *)
  history : nat
}.

(** The default of [allowed_methods]: the idempotent methods. *)
Definition DEFAULT_ALLOWED_METHODS : list string :=
  ["HEAD"; "GET"; "PUT"; "DELETE"; "OPTIONS"; "TRACE"].

Definition RETRY_AFTER_STATUS_CODES : list nat := [413; 429; 503].

Definition DEFAULT_BACKOFF_MAX : nat := 120.

(** [Retry(total=..., backoff_factor=..., status_forcelist=...)]. *)
Definition new (total backoff_factor : nat) (status_forcelist : list nat)
  : Retry :=
  {| total := total; backoff_factor := backoff_factor;
     status_forcelist := status_forcelist;
     allowed_methods := DEFAULT_ALLOWED_METHODS;
     backoff_max := DEFAULT_BACKOFF_MAX;
     respect_retry_after_header := true;
     history := 0 |}.

Definition is_method_retryable (r : Retry) (method : string) : bool :=
  bool_decide (method ∈ allowed_methods r).

(** Is a response with this status to be retried? *)
Definition is_retry (r : Retry) (method : string) (status_code : nat)
  (has_retry_after : bool) : bool :=
  is_method_retryable r method
  && (bool_decide (status_code ∈ status_forcelist r)
      || (negb (total r =? 0) && respect_retry_after_header r
          && has_retry_after
          && bool_decide (status_code ∈ RETRY_AFTER_STATUS_CODES))).

(** One retry is used up: the count goes down by one and the failure is
    added to the history; [None] is [MaxRetryError], raised when the new
    count would be negative. *)
Definition increment (r : Retry) : option Retry :=
  match total r with
  | 0 => None
  | S n =>
    Some {| total := n; backoff_factor := backoff_factor r;
            status_forcelist := status_forcelist r;
            allowed_methods := allowed_methods r;
            backoff_max := backoff_max r;
            respect_retry_after_header := respect_retry_after_header r;
            history := S (history r) |}
  end.

(** Seconds slept before the next attempt. *)
Definition get_backoff_time (r : Retry) : nat :=
  if history r <=? 1 then 0
  else backoff_max r `min` (backoff_factor r * 2 ^ (history r - 1)).

End urllib3.

(** What one attempt to send the request meets. *)
Inductive attempt :=
  | ConnectFailed
  | ReadFailed
  | HttpStatus (code : nat) (retry_after : bool)
  | Interrupted.

Inductive upload_event :=
  | send_request (k : nat)
  | backoff (seconds : nat).

(** [session.post(...)] through the mounted adapter: the attempts urllib3
    makes against an endpoint that answers the [k]-th attempt with
    [endpoint k].  A connection that cannot be established is retried for
    every method; a failure after the request was sent, and a response, are
    retried only for a retryable method.  [fuel] bounds the recursion and
    is set to more than [total] allows. *)
Fixpoint urlopen (fuel : nat) (method : string) (retries : urllib3.Retry)
  (endpoint : nat → attempt) (k : nat) : result nat * list upload_event :=
  let again (fuel' : nat) (on_exhausted : exn) :=
    match urllib3.increment retries with
    | None => (Raised on_exhausted, [send_request k])
    | Some retries' =>
      let '(res, tr) := urlopen fuel' method retries' endpoint (S k) in
      (res, send_request k :: backoff (urllib3.get_backoff_time retries') :: tr)
    end in
  match fuel with
  | 0 => (Raised ConnectionError, [])
  | S fuel' =>
    match endpoint k with
    | Interrupted => (Raised KeyboardInterrupt, [send_request k])
    | ConnectFailed => again fuel' ConnectionError
    | ReadFailed =>
      if urllib3.is_method_retryable retries method
      then again fuel' ConnectionError
      else (Raised ConnectionError, [send_request k])
    | HttpStatus code retry_after =>
      if urllib3.is_retry retries method code retry_after
      then again fuel' RetryError
      else (Returned code, [send_request k])
    end
  end.

Definition session_post (retries : urllib3.Retry) (endpoint : nat → attempt)
  : result nat * list upload_event :=
  urlopen (S (urllib3.total retries)) "POST" retries endpoint 0.

(** ** [send_zip_to_telegram] (lines 203-228) *)

(** Line 212. *)
Definition retries : urllib3.Retry := urllib3.new 5 2 [429; 500; 502; 503].

(** What the function meets outside the program: the name the temporary
    file gets, whether creating it, writing the archive to it and reopening
    it succeed, and the endpoint. *)
Record upload_env := {
  tmp_name : string;
  tmp_create : bool;
  tmp_write : bool;
  tmp_open : bool;
  endpoint : nat → attempt
}.

(** [r.raise_for_status()]. *)
Definition raise_for_status (code : nat) : result unit :=
  if (400 <=? code) && (code <? 600) then Raised HTTPError else Returned ().

(** [try: body ... except Exception: return False]. *)
Definition except_Exception (body : result bool) : result bool :=
  match body with
  | Raised e => if is_Exception e then Returned false else Raised e
  | r => r
  end.

(** The files that exist are a set of paths. *)
Definition send_zip_to_telegram (env : upload_env) (fs : gset string)
  (zip_bytes : list (string * bytes)) (name : string)
  : result bool * gset string * list upload_event :=
  let path := tmp_name env in
  if negb (tmp_create env) then (Raised OSError, fs, [])
  else
    let fs := fs ∪ {[path]} in
    if negb (tmp_write env) then (Raised OSError, fs, [])
    else
      let '(body, tr) :=
        if negb (tmp_open env) then (Raised OSError, [])
        else
          let '(r, tr) := session_post retries (endpoint env) in
          match r with
          | Returned code =>
            match raise_for_status code with
            | Returned _ => (Returned true, tr)
            | Raised e => (Raised e, tr)
            end
          | Raised e => (Raised e, tr)
          end in
      (except_Exception body, fs ∖ {[path]}, tr).

(** ** [main] from line 296 on, under the guard of lines 323-329 *)

(** How the process ends: [sys.exit(code)], or an exception no handler
    caught. *)
Inductive exit :=
  | Exit (code : nat)
  | Uncaught (e : exn).

(** Lines 323-329: [SystemExit] raised by [sys.exit(0)] is not an
    [Exception] and ends the process with code 0; an [Exception] raised in
    [main] is logged and turned into [sys.exit(1)]. *)
Definition main_guard {A} (r : result A) : exit :=
  match r with
  | Returned _ => Exit 0
  | Raised e => if is_Exception e then Exit 1 else Uncaught e
  end.

Record run := {
  globals : RunState;
  files : gset string;
  (** the arguments of each call of [send_zip_to_telegram] *)
  upload_calls : list (list (string * bytes) * string);
  upload_trace : list upload_event;
  exit_status : exit
}.

Section Main.

Variable to_excel : frame → result bytes.

(** [smart], [rows] (the rows of [df]), [FROM], [TO] and [ddmmyy]
    ([expiry.strftime('%d%m%y')]) are what lines 278-294 computed. *)
Definition main (smart : SmartConnect) (rows : list row)
  (FROM TO ddmmyy : string) (env : upload_env) (fs : gset string) : run :=
  let '(st, ex) := pipeline_loop to_excel smart rows FROM TO in
  match ex with
  | LoopRaised e =>
    {| globals := st; files := fs; upload_calls := []; upload_trace := [];
       exit_status := main_guard (@Raised unit e) |}
  | LoopDone =>
    match success_list st with
    | [] =>
      {| globals := st; files := fs; upload_calls := [];
         upload_trace := []; exit_status := Exit 0 |}
    | _ :: _ =>
      let name := "SENSEX_expiry_" +:+ ddmmyy +:+ "_1min.zip" in
      let '(r, fs', tr) := send_zip_to_telegram env fs (zip_buf st) name in
      {| globals := st; files := fs'; upload_calls := [(zip_buf st, name)];
         upload_trace := tr; exit_status := main_guard r |}
    end
  end.

End Main.

(** ** Reading traces *)

(** The indices of the calls made, and the delays slept, in order. *)
Definition calls (tr : list event) : list nat :=
  omap (λ e, match e with getCandleData _ i => Some i | _ => None end) tr.

Definition delays (tr : list event) : list nat :=
  omap (λ e, match e with sleep s => Some s | _ => None end) tr.

Definition attempts (tr : list event) : nat := length (calls tr).

(** The same for the upload. *)
Definition upload_attempts (tr : list upload_event) : nat :=
  length (omap (λ e, match e with send_request k => Some k | _ => None end) tr).

Definition upload_delays (tr : list upload_event) : list nat :=
  omap (λ e, match e with backoff s => Some s | _ => None end) tr.

(** A reply after which [get_candles_with_retry] tries again: an exception,
    a falsy value, or a dict whose status is falsy. *)
Definition failed_reply (r : reply) : bool :=
  match r with
  | Returns (Some rsp) => negb (status rsp)
  | _ => true
  end.

(** The [err] component of what [download_symbol] returned. *)
Definition reason (r : result outcome) : option string :=
  match r with
  | Returned (_, _, err) => err
  | Raised _ => None
  end.

(** ** Sample inputs *)

(** A workbook writer that succeeds, as pandas and openpyxl do on a frame
    whose dates carry no UTC offset, like those of the samples below (the
    two bytes are the magic number of a zip container, which an xlsx file
    is). *)
Definition excel_ok : frame → result bytes :=
  λ _, Returned [Byte.x50; Byte.x4b].

Definition row_A : row := {| TradingSymbol := "SENSEX2510980000CE"; Token := 1 |}.
Definition row_B : row := {| TradingSymbol := "SENSEX2510980000PE"; Token := 2 |}.
Definition row_C : row := {| TradingSymbol := "SENSEX2510980100CE"; Token := 3 |}.

(** A second row with the symbol of [row_A] and the token of [row_C]. *)
Definition row_A_again : row :=
  {| TradingSymbol := "SENSEX2510980000CE"; Token := 3 |}.

Definition candle : list cell :=
  [CStr "2025-01-09T09:15:00"; CNum 100; CNum 120; CNum 90; CNum 110;
   CNum 5000].

(** A candle without its volume field. *)
Definition short_candle : list cell :=
  [CStr "2025-01-09T09:15:00"; CNum 100; CNum 120; CNum 90; CNum 110].

(** Every call raises. *)
Definition smart_down : SmartConnect := λ _ _, Raises.

(** Every call succeeds with one candle. *)
Definition smart_up : SmartConnect :=
  λ _ _, Returns (Some {| status := true; data := DataRows [candle] |}).

(** Every call is flagged successful and carries no row. *)
Definition smart_empty : SmartConnect :=
  λ _ _, Returns (Some {| status := true; data := DataRows [] |}).

(** Every call is flagged successful and carries one five-field row. *)
Definition smart_short : SmartConnect :=
  λ _ _, Returns (Some {| status := true; data := DataRows [short_candle] |}).

(** Token 3 has no data, token 1 gets a five-field row, every other token
    gets candles. *)
Definition smart_mixed : SmartConnect :=
  λ p i,
    if decide (symboltoken p = "3") then smart_down p i
    else if decide (symboltoken p = "1") then smart_short p i
    else smart_up p i.

(** Token 3 has no data, every other token gets candles. *)
Definition smart_AB : SmartConnect :=
  λ p i, if decide (symboltoken p = "3") then smart_down p i else smart_up p i.

(** ** Reading the recorded results *)

Definition symbol_of (o : outcome) : string := o.1.1.

(** [if data:] on line 304. *)
Definition is_success (o : outcome) : bool := truthy_bytes o.1.2.

(** The archive entry written for a success. *)
Definition archive_entry (o : outcome) : string * bytes :=
  (symbol_of o +:+ ".xlsx", default [] o.1.2).

(** The results the loop consumes: those before the first call that
    raised. *)
Fixpoint consumed (results : list (result outcome)) : list outcome :=
  match results with
  | Returned o :: results' => o :: consumed results'
  | _ => []
  end.

(** The endpoint refuses every connection. *)
Definition endpoint_down : nat → attempt := λ _, ConnectFailed.

(** The endpoint answers every request with 429 Too Many Requests. *)
Definition endpoint_busy : nat → attempt := λ _, HttpStatus 429 false.

(** The endpoint accepts the first request. *)
Definition endpoint_ok : nat → attempt := λ _, HttpStatus 200 false.

Definition env_of (create write : bool) (endpoint : nat → attempt)
  : upload_env :=
  {| tmp_name := "/tmp/tmpk3v9x2ab"; tmp_create := create;
     tmp_write := write; tmp_open := true; endpoint := endpoint |}.

(** The delay urllib3 sleeps before the [n]-th retry under [retries]. *)
Definition backoff_before_retry (n : nat) : nat :=
  if n <=? 1 then 0 else 120 `min` (2 * 2 ^ (n - 1)).

(** ** The worker pool (lines 302-310)

    [with ThreadPoolExecutor(MAX_WORKERS) as ex: for ... in ex.map(...)]:
    [ex.map] submits one call of [download_symbol] per element of [args] at
    once; at most [MAX_WORKERS] worker threads take the calls from the
    queue in order and run them; the main thread draws the results in the
    order of [args], waiting for each, and runs the loop body on it.  The
    interleaving of the threads is a schedule, a list of actions.  What a
    call returns depends on its arguments and on the replies of the data
    source to that call, not on the schedule. *)

Inductive thread :=
  | MainThread
  | WorkerThread.

(** Where the main thread stands in the loop: about to draw the next
    result, between lines 306 and 307, between lines 309 and 310, or out of
    the loop. *)
Inductive coordinator :=
  | AtNext
  | AfterWritestr (symbol : string)
  | AfterFailedAppend (symbol : string) (err : option string)
  | Finished (e : loop_exit).

Record pool := Pool {
  (** indices of the calls submitted and not yet taken by a worker *)
  queue : list nat;
  (** indices of the calls in progress, one per busy worker *)
  running : list nat;
  (** the futures that are done, with their result *)
  futures : gmap nat (result outcome);
  (** index of the future the main thread draws next *)
  next : nat;
  coord : coordinator;
  (** the globals of lines 81-83 and the archive *)
  run_state : RunState;
  (** the thread holding [zip_lock] (line 84), if any *)
  zip_lock : option thread
}.

Inductive action :=
  (** a free worker takes the call at the head of the queue *)
  | Take
  | (** the worker running call [i] finishes it and sets its future *)
    Finish (i : nat)
  | (** the main thread makes its next move *)
    Coordinate.

Definition thread_of (a : action) : thread :=
  match a with
  | Coordinate => MainThread
  | _ => WorkerThread
  end.

Section Pool.

Variable to_excel : frame → result bytes.
Variable args : list (SmartConnect * row * string * string).

Definition submitted : pool :=
  {| queue := seq 0 (length args); running := []; futures := ∅; next := 0;
     coord := AtNext; run_state := initial_state; zip_lock := None |}.

(** One move of the main thread.  [None]: it is blocked on a future that
    is not done, or it has left the loop. *)
Definition coordinate (σ : pool) : option pool :=
  match coord σ with
  | AtNext =>
    if decide (next σ = length args)
    then Some (Pool (queue σ) (running σ) (futures σ) (next σ)
                 (Finished LoopDone) (run_state σ) (zip_lock σ))
    else
      match futures σ !! next σ with
      | None => None
      | Some (Raised e) =>
        Some (Pool (queue σ) (running σ) (futures σ) (next σ)
                (Finished (LoopRaised e)) (run_state σ) (zip_lock σ))
      | Some (Returned (symbol, data, err)) =>
        if truthy_bytes data
        then Some (Pool (queue σ) (running σ) (futures σ) (next σ)
                     (AfterWritestr symbol)
                     (writestr symbol (default [] data) (run_state σ))
                     (zip_lock σ))
        else Some (Pool (queue σ) (running σ) (futures σ) (next σ)
                     (AfterFailedAppend symbol err)
                     (failed_append symbol (run_state σ)) (zip_lock σ))
      end
  | AfterWritestr symbol =>
    Some (Pool (queue σ) (running σ) (futures σ) (S (next σ)) AtNext
            (success_append symbol (run_state σ)) (zip_lock σ))
  | AfterFailedAppend symbol err =>
    Some (Pool (queue σ) (running σ) (futures σ) (S (next σ)) AtNext
            (details_append symbol err (run_state σ)) (zip_lock σ))
  | Finished _ => None
  end.

(** One action of the schedule; [None] when it is not enabled. *)
Definition exec (a : action) (σ : pool) : option pool :=
  match a with
  | Take =>
    match queue σ with
    | i :: q =>
      if decide (length (running σ) < MAX_WORKERS)
      then Some (Pool q (running σ ++ [i]) (futures σ) (next σ) (coord σ)
                   (run_state σ) (zip_lock σ))
      else None
    | [] => None
    end
  | Finish i =>
    if decide (i ∈ running σ)
    then
      match args !! i with
      | Some a =>
        Some (Pool (queue σ) (filter (λ j, j ≠ i) (running σ))
                (<[i := (download_symbol to_excel a).1]> (futures σ))
                (next σ) (coord σ) (run_state σ) (zip_lock σ))
      | None => None
      end
    else None
  | Coordinate => coordinate σ
  end.

Fixpoint execs (sched : list action) (σ : pool) : option pool :=
  match sched with
  | [] => Some σ
  | a :: sched' =>
    match exec a σ with
    | Some σ' => execs sched' σ'
    | None => None
    end
  end.

(** The states some schedule reaches after the submission. *)
Definition reachable (σ : pool) : Prop :=
  ∃ sched, execs sched submitted = Some σ.

(** The same tasks run one after the other in input order, each recorded
    before the next one starts. *)
Fixpoint sequential_run
  (todo : list (SmartConnect * row * string * string)) (st : RunState)
  : RunState * loop_exit :=
  match todo with
  | [] => (st, LoopDone)
  | a :: todo' =>
    match (download_symbol to_excel a).1 with
    | Returned o => sequential_run todo' (record_outcome o st)
    | Raised e => (st, LoopRaised e)
    end
  end.

(** What [ex.map] holds for the main thread, in the order of [args]. *)
Definition results : list (result outcome) := map_download to_excel args.

(** The globals after the loop body ran on each of [os] in turn. *)
Definition recorded (os : list outcome) : RunState :=
  foldl (λ st o, record_outcome o st) initial_state os.

(** What the globals hold, by the place of the main thread. *)
Definition coordinator_inv (σ : pool) : Prop :=
  match coord σ with
  | AtNext =>
    ∃ os, take (next σ) results = Returned <$> os
          ∧ next σ ≤ length args
          ∧ run_state σ = recorded os
  | AfterWritestr symbol =>
    ∃ os o, take (next σ) results = Returned <$> os
            ∧ results !! next σ = Some (Returned o)
            ∧ is_success o = true
            ∧ symbol = symbol_of o
            ∧ run_state σ = writestr symbol (default [] o.1.2) (recorded os)
  | AfterFailedAppend symbol err =>
    ∃ os o, take (next σ) results = Returned <$> os
            ∧ results !! next σ = Some (Returned o)
            ∧ is_success o = false
            ∧ symbol = symbol_of o
            ∧ err = o.2
            ∧ run_state σ = failed_append symbol (recorded os)
  | Finished ex => result_loop results initial_state = (run_state σ, ex)
  end.

Definition pool_inv (σ : pool) : Prop :=
  zip_lock σ = None
  ∧ length (running σ) ≤ MAX_WORKERS
  ∧ (∀ i r, futures σ !! i = Some r → results !! i = Some r)
  ∧ coordinator_inv σ.

(** The reading of C10: whoever changes the globals or the archive holds
    [zip_lock] while doing so. *)
Definition mutation_under_lock : Prop :=
  ∀ σ a σ',
    reachable σ → exec a σ = Some σ' → run_state σ' ≠ run_state σ →
    zip_lock σ = Some (thread_of a).

End Pool.

(** The symbol of the task behind an element of [args]. *)
Definition task_symbol (a : SmartConnect * row * string * string) : string :=
  TradingSymbol a.1.1.2.

(** ** More sample inputs *)

Definition args_ABC : list (SmartConnect * row * string * string) :=
  make_args smart_AB [row_A; row_B; row_C] "2024-10-11 09:15" "2025-01-09 15:30".

Definition args_A : list (SmartConnect * row * string * string) :=
  make_args smart_up [row_A] "2024-10-11 09:15" "2025-01-09 15:30".

(** All three workers start; the third call ends first, then the first,
    whose result the main thread records while the second call is still
    running. *)
Definition schedule_ABC : list action :=
  [Take; Take; Take; Finish 2; Finish 0; Coordinate; Finish 1; Coordinate;
   Coordinate; Coordinate; Coordinate; Coordinate; Coordinate].

(** The first two calls fail, the third returns one candle. *)
Definition smart_third : SmartConnect :=
  λ p i, if decide (i < 2) then Returns None else smart_up p i.

(** ** The last traded price (lines 132-146) *)

(** Line 75. *)
Definition SENSEX_TOKEN : string := "99919000".

(** [get_SENSEX_ltp]: the value it returns, with [CNull] for [None].
    [fromdate] and [todate] are the two formatted times of lines 138-139.
    [resp["data"][-1][4]] raises [IndexError] on a last row of fewer than
    five fields, which the bare [except] turns into [None], as it does an
    exception of the call. *)
Definition get_SENSEX_ltp (smart : SmartConnect) (fromdate todate : string)
  : cell :=
  let p := {| exchange := "BSE"; symboltoken := SENSEX_TOKEN;
              interval := "ONE_MINUTE"; fromdate := fromdate;
              todate := todate |} in
  match smart p 0 with
  | Returns (Some resp) =>
    if status resp && truthy_data (data resp)
    then
      match data resp with
      | DataRows rows =>
        match last rows with
        | Some r => default CNull (r !! 4)
        | None => CNull
        end
      | DataNone => CNull
      end
    else CNull
  | Returns None | Raises => CNull
  end.

(** ** The symbol master (lines 163-197) *)

(** [line.rstrip(chars)]: the line without its longest suffix made of
    characters of [chars]. *)
Fixpoint rstrip (chars : list Ascii.ascii) (line : string) : string :=
  match line with
  | "" => ""
  | String c line' =>
    match rstrip chars line' with
    | "" => if decide (c ∈ chars) then "" else String c ""
    | kept => String c kept
    end
  end.

(** Lines 170-172, on the lines [f.read().decode().splitlines()] gave:
    each line loses its trailing commas and the lines are joined again. *)
Definition clean_master_text (lines : list string) : string :=
  String.concat (String "010"%char "") (rstrip [","%char] <$> lines).

(** A row of the symbol master, by the columns the code reads.
    [StrikePrice] is the value [pd.to_numeric(..., errors="coerce")] gives
    for the cell, an exact binary fraction, or [None] for NaN. *)
Record master_row := MasterRow {
  Symbol : string;
  Instrument : string;
  Expiry : string;
  StrikePrice : option Q;
  contract : row
}.

Record date := Date { year : nat; month : nat; day : nat }.

Global Instance date_eq_dec : EqDecision date.
Proof. solve_decision. Defined.

(** [%b] in the C locale. *)
Definition month_abbr (m : nat) : string :=
  default "" (["Jan"; "Feb"; "Mar"; "Apr"; "May"; "Jun"; "Jul"; "Aug"; "Sep";
               "Oct"; "Nov"; "Dec"] !! (m - 1)).

(** [%d]: two digits. *)
Definition two_digits (n : nat) : string :=
  if n <? 10 then "0" +:+ pretty n else pretty n.

(** [d.strftime("%d-%b-%Y")] for a year of four digits. *)
Definition strftime_d_b_Y (d : date) : string :=
  two_digits (day d) +:+ "-" +:+ month_abbr (month d) +:+ "-"
    +:+ pretty (year d).

Definition is_lower (c : Ascii.ascii) : bool :=
  (97 <=? Ascii.nat_of_ascii c) && (Ascii.nat_of_ascii c <=? 122).

(** [str.upper()] on ASCII text. *)
Definition upper_char (c : Ascii.ascii) : Ascii.ascii :=
  if is_lower c then Ascii.ascii_of_nat (Ascii.nat_of_ascii c - 32) else c.

Fixpoint upper (s : string) : string :=
  match s with
  | "" => ""
  | String c s' => String (upper_char c) (upper s')
  end.

(** [x % 100 == 0] on a finite float [x]: the remainder is computed
    exactly, so the test holds when [x] is an integer multiple of 100. *)
Definition multiple_of_100 (x : Q) : bool :=
  (Qnum x mod (100 * Zpos (Qden x)) =? 0)%Z.

(** The rows of the index options: [Symbol == "BSXOPT"] and
    [Instrument == "OPTIDX"]. *)
Definition is_index_option (r : master_row) : bool :=
  bool_decide (Symbol r = "BSXOPT") && bool_decide (Instrument r = "OPTIDX").

(** The second mask of [get_option_symbols]; a comparison with NaN is
    false. *)
Definition strike_in_range (start end_ : Q) (r : master_row) : bool :=
  match StrikePrice r with
  | Some x => Qle_bool start x && Qle_bool x end_ && multiple_of_100 x
  | None => false
  end.

(** [get_option_symbols] (lines 183-197). *)
Definition get_option_symbols (df : list master_row) (expiry_date : date)
  (start end_ : Q) : list master_row :=
  let expiry := upper (strftime_d_b_Y expiry_date) in
  let df :=
    List.filter (λ r, is_index_option r && bool_decide (Expiry r = expiry)) df in
  List.filter (strike_in_range start end_) df.

Section ExpiryDay.

(** [pd.to_datetime(text, format="%d-%b-%Y")] on one cell and [.dt.date]:
    the date, or [None] when pandas raises [ValueError] on the text.  The
    parsing is pandas', not code of the repository. *)
Variable to_datetime : string → option date.

(** [is_today_SENSEX_expiry] (lines 176-180); [today] is
    [datetime.now(IST).date()]. *)
Definition is_today_SENSEX_expiry (df : list master_row) (today : date)
  : result (bool * date) :=
  let df := List.filter is_index_option df in
  match mapM to_datetime (Expiry <$> df) with
  | Some expiry_dates => Returned (bool_decide (today ∈ expiry_dates), today)
  | None => Raised ValueError
  end.

End ExpiryDay.

(** A parser that knows two spellings of one date. *)
Definition to_datetime_sample (text : string) : option date :=
  if decide (text = "09-JAN-2025") then Some (Date 2025 1 9)
  else if decide (text = "09-Jan-2025") then Some (Date 2025 1 9)
  else if decide (text = "16-JAN-2025") then Some (Date 2025 1 16)
  else None.

Definition master_sample : list master_row :=
  [MasterRow "BSXOPT" "OPTIDX" "09-JAN-2025" (Some (80000 # 1)) row_A;
   MasterRow "BSXOPT" "OPTIDX" "09-JAN-2025" (Some (80050 # 1)) row_B;
   MasterRow "BSXOPT" "OPTIDX" "16-JAN-2025" (Some (80100 # 1)) row_C;
   MasterRow "BKXOPT" "OPTIDX" "not a date" None row_C].

(** A data source whose last candle has four fields. *)
Definition smart_cut : SmartConnect :=
  λ _ _, Returns (Some {| status := true;
                          data := DataRows [candle; take 4 candle] |}).

(** The master of [master_sample] with the expiry texts as ["09-Jan-2025"]. *)
Definition master_titlecase : list master_row :=
  [MasterRow "BSXOPT" "OPTIDX" "09-Jan-2025" (Some (80000 # 1)) row_A;
   MasterRow "BSXOPT" "OPTIDX" "09-Jan-2025" (Some (80100 # 1)) row_B].

(** ** Bookkeeping of the pool *)

(** Where the scheduling stands: the calls before [j] have been taken from
    the queue, in order; each of them is either running or done. *)
Definition sched_inv (args : list (SmartConnect * row * string * string))
  (σ : pool) : Prop :=
  ∃ j, j ≤ length args
       ∧ queue σ = seq j (length args - j)
       ∧ NoDup (running σ)
       ∧ (∀ i, i ∈ running σ → i < j ∧ futures σ !! i = None)
       ∧ (∀ i, i < j → i ∉ running σ → is_Some (futures σ !! i))
       ∧ (∀ i, is_Some (futures σ !! i) → i < j).

(** The number of actions the threads can still take, at most, with [n]
    tasks. *)
Definition work (n : nat) (σ : pool) : nat :=
  2 * length (queue σ) + length (running σ)
  + match coord σ with
    | AtNext => 2 * (n - next σ) + 2
    | AfterWritestr _ | AfterFailedAppend _ _ => 2 * (n - next σ) + 1
    | Finished _ => 0
    end.

(** * Properties *)

(** ** The retrying fetcher *)

Lemma retry_loop_all_failed smart p range :
  (∀ i, i ∈ range → failed_reply (smart p i) = true) →
  retry_loop smart p range =
    (None, range ≫= λ i, [getCandleData p i; sleep ((i + 1) * 5)]).
Proof.
  induction range as [|i range IH]; intros Hfail; [done|].
  cbn [retry_loop mbind list_bind]. rewrite IH.
  - specialize (Hfail i (list_elem_of_here _ _)).
    destruct (smart p i) as [|[rsp|]]; try done.
    cbn in Hfail. by destruct (status rsp).
  - intros j Hj. apply Hfail. by right.
Qed.

Lemma retry_loop_first_success smart p pre i post rsp :
  (∀ j, j ∈ pre → failed_reply (smart p j) = true) →
  smart p i = Returns (Some rsp) → status rsp = true →
  retry_loop smart p (pre ++ i :: post) =
    (Some rsp,
     (pre ≫= λ j, [getCandleData p j; sleep ((j + 1) * 5)])
       ++ [getCandleData p i]).
Proof.
  intros Hfail Hi Hst.
  induction pre as [|j pre IH]; cbn [app retry_loop mbind list_bind].
  - by rewrite Hi, Hst.
  - rewrite IH.
    + specialize (Hfail j (list_elem_of_here _ _)).
      destruct (smart p j) as [|[r|]]; try done.
      cbn in Hfail. by destruct (status r).
    + intros j' Hj'. apply Hfail. by right.
Qed.

Lemma download_symbol_all_failed to_excel smart r FROM TO :
  (∀ i, i < MAX_RETRIES →
        failed_reply (smart (candle_params r FROM TO) i) = true) →
  download_symbol to_excel (smart, r, FROM, TO) =
    (Returned (TradingSymbol r, None, Some "No data"),
     seq 0 MAX_RETRIES ≫= λ i,
       [getCandleData (candle_params r FROM TO) i; sleep ((i + 1) * 5)]).
Proof.
  intros Hfail. unfold download_symbol, get_candles_with_retry.
  rewrite retry_loop_all_failed; [done|].
  intros i Hi. apply Hfail. apply elem_of_seq in Hi. lia.
Qed.

(** C2. A task whose fetch fails on every attempt (an exception, a falsy
    reply or a reply whose status is falsy) is tried exactly [MAX_RETRIES]
    = 3 times; the attempt of index [i] (counted from 0) is followed by a
    sleep of [(i + 1) * 5] seconds, so the delays are 5, 10, 15 and never
    decrease; after the last attempt [download_symbol] returns the failure
    triple [(symbol, None, "No data")]. *)
Theorem always_failing_fetch_retries_then_fails to_excel smart r FROM TO :
  (∀ i, i < MAX_RETRIES →
        failed_reply (smart (candle_params r FROM TO) i) = true) →
  (download_symbol to_excel (smart, r, FROM, TO)).1
    = Returned (TradingSymbol r, None, Some "No data")
  ∧ (download_symbol to_excel (smart, r, FROM, TO)).2
    = [getCandleData (candle_params r FROM TO) 0; sleep 5;
       getCandleData (candle_params r FROM TO) 1; sleep 10;
       getCandleData (candle_params r FROM TO) 2; sleep 15]
  ∧ attempts (download_symbol to_excel (smart, r, FROM, TO)).2 = MAX_RETRIES
  ∧ MAX_RETRIES = 3
  ∧ delays (download_symbol to_excel (smart, r, FROM, TO)).2
    = (λ k, k * 5) <$> seq 1 MAX_RETRIES
  ∧ (∀ j k d d',
       j ≤ k →
       delays (download_symbol to_excel (smart, r, FROM, TO)).2 !! j = Some d →
       delays (download_symbol to_excel (smart, r, FROM, TO)).2 !! k = Some d' →
       d ≤ d').
Proof.
  intros Hfail. rewrite download_symbol_all_failed by done.
  repeat split.
  cbn. intros j k d d' Hjk Hj Hk.
  destruct j as [|[|[|j]]], k as [|[|[|k]]]; simplify_eq/=; lia.
Qed.

Lemma always_failing_fetch_retries_then_fails_witness :
  (download_symbol excel_ok (smart_down, row_A, "2024-10-11 09:15",
                             "2025-01-09 15:30")).1
    = Returned ("SENSEX2510980000CE", None, Some "No data")
  ∧ delays (download_symbol excel_ok (smart_down, row_A, "2024-10-11 09:15",
                                      "2025-01-09 15:30")).2 = [5; 10; 15].
Proof.
  pose proof (always_failing_fetch_retries_then_fails excel_ok smart_down
    row_A "2024-10-11 09:15" "2025-01-09 15:30") as H.
  destruct H as (Hres & _ & _ & _ & Hdel & _).
  - intros i _. reflexivity.
  - split; [exact Hres | exact Hdel].
Defined.

(** C3. [download_symbol] has no handler around the construction of the
    frame: a reply flagged successful whose rows have five fields makes
    [pd.DataFrame] raise [ValueError], the call raises instead of returning
    a failure triple, [ex.map] re-raises in the coordinator, the loop stops
    with the later task unrecorded, no upload is made and the process exits
    with code 1. *)
Theorem short_row_raises_through_the_coordinator :
  (∀ to_excel,
     download_symbol to_excel
       (smart_short, row_A, "2024-10-11 09:15", "2025-01-09 15:30")
     = (Raised ValueError,
        [getCandleData (candle_params row_A "2024-10-11 09:15"
                                      "2025-01-09 15:30") 0]))
  ∧ pipeline_loop excel_ok smart_mixed [row_B; row_A; row_C]
      "2024-10-11 09:15" "2025-01-09 15:30"
    = ({| success_list := ["SENSEX2510980000PE"]; failed_list := [];
          failed_details := [];
          zip_buf := [("SENSEX2510980000PE.xlsx", [Byte.x50; Byte.x4b])] |},
       LoopRaised ValueError)
  ∧ ∀ env fs,
      upload_calls (main excel_ok smart_mixed [row_B; row_A; row_C]
        "2024-10-11 09:15" "2025-01-09 15:30" "090125" env fs) = []
      ∧ exit_status (main excel_ok smart_mixed [row_B; row_A; row_C]
        "2024-10-11 09:15" "2025-01-09 15:30" "090125" env fs) = Exit 1.
Proof.
  split; [|split].
  - intros to_excel. reflexivity.
  - vm_compute. reflexivity.
  - intros env fs. split; reflexivity.
Qed.

(** ** Empty results *)

Lemma download_symbol_no_data to_excel smart r FROM TO k rsp :
  k < MAX_RETRIES →
  (∀ i, i < k → failed_reply (smart (candle_params r FROM TO) i) = true) →
  smart (candle_params r FROM TO) k = Returns (Some rsp) →
  status rsp = true →
  truthy_data (data rsp) = false →
  download_symbol to_excel (smart, r, FROM, TO) =
    (Returned (TradingSymbol r, None, Some "No data"),
     (seq 0 k ≫= λ i,
        [getCandleData (candle_params r FROM TO) i; sleep ((i + 1) * 5)])
       ++ [getCandleData (candle_params r FROM TO) k]).
Proof.
  intros Hk Hfail Hrep Hst Hdata.
  unfold download_symbol, get_candles_with_retry.
  replace (seq 0 MAX_RETRIES) with (seq 0 k ++ k :: seq (S k) (MAX_RETRIES - S k)).
  - rewrite (retry_loop_first_success _ _ _ _ _ rsp); try done.
    + by destruct (data rsp) as [|[|]].
    + intros j Hj. apply Hfail. apply elem_of_seq in Hj. lia.
  - change (k :: seq (S k) (MAX_RETRIES - S k))
      with (seq k (S (MAX_RETRIES - S k))).
    change k with (0 + k) at 2. rewrite <- seq_app. f_equal. lia.
Qed.

Lemma calls_failed_attempts p s k :
  calls (seq s k ≫= λ i, [getCandleData p i; sleep ((i + 1) * 5)]) = seq s k.
Proof.
  revert s. induction k as [|k IH]; intros s; [done|].
  cbn [seq mbind list_bind app]. unfold calls in *. cbn. by rewrite IH.
Qed.

Lemma calls_retry_prefix p k :
  calls ((seq 0 k ≫= λ i, [getCandleData p i; sleep ((i + 1) * 5)])
           ++ [getCandleData p k]) = seq 0 (S k).
Proof.
  rewrite seq_S. unfold calls. rewrite omap_app. f_equal.
  apply calls_failed_attempts.
Qed.

(** C4 as stated fails: the reason recorded for a reply flagged successful
    with no row is the reason recorded for a source that raises on every
    attempt. *)
Lemma no_data_reason_is_not_distinct :
  ¬ (reason (download_symbol excel_ok
               (smart_empty, row_A, "2024-10-11 09:15", "2025-01-09 15:30")).1
     ≠ reason (download_symbol excel_ok
               (smart_down, row_A, "2024-10-11 09:15", "2025-01-09 15:30")).1).
Proof. intros H. apply H. reflexivity. Qed.

(** C4, amended. When the first reply that is not a failure comes at
    attempt [k] and is flagged successful with no data row, the task
    resolves to [(symbol, None, "No data")] after exactly [k + 1] calls, the
    last event being that call: no further attempt and no further sleep.
    The reason is the same "No data" that a fetch failing on every attempt
    records. *)
Theorem empty_result_fails_without_retry to_excel smart smart' r FROM TO k rsp :
  k < MAX_RETRIES →
  (∀ i, i < k → failed_reply (smart (candle_params r FROM TO) i) = true) →
  smart (candle_params r FROM TO) k = Returns (Some rsp) →
  status rsp = true →
  truthy_data (data rsp) = false →
  (∀ i, i < MAX_RETRIES →
        failed_reply (smart' (candle_params r FROM TO) i) = true) →
  (download_symbol to_excel (smart, r, FROM, TO)).1
    = Returned (TradingSymbol r, None, Some "No data")
  ∧ calls (download_symbol to_excel (smart, r, FROM, TO)).2 = seq 0 (S k)
  ∧ last (download_symbol to_excel (smart, r, FROM, TO)).2
    = Some (getCandleData (candle_params r FROM TO) k)
  ∧ reason (download_symbol to_excel (smart, r, FROM, TO)).1
    = reason (download_symbol to_excel (smart', r, FROM, TO)).1.
Proof.
  intros Hk Hfail Hrep Hst Hdata Hfail'.
  rewrite (download_symbol_no_data to_excel smart r FROM TO k rsp) by done.
  rewrite (download_symbol_all_failed to_excel smart') by done.
  cbn [fst snd reason]. repeat split.
  - apply calls_retry_prefix.
  - by rewrite last_snoc.
Qed.

Lemma empty_result_fails_without_retry_witness :
  (download_symbol excel_ok
     (smart_empty, row_A, "2024-10-11 09:15", "2025-01-09 15:30")).1
    = Returned ("SENSEX2510980000CE", None, Some "No data")
  ∧ calls (download_symbol excel_ok
     (smart_empty, row_A, "2024-10-11 09:15", "2025-01-09 15:30")).2 = [0].
Proof.
  pose proof (empty_result_fails_without_retry excel_ok smart_empty smart_down
    row_A "2024-10-11 09:15" "2025-01-09 15:30" 0
    {| status := true; data := DataRows [] |}) as H.
  destruct H as (Hres & Hcalls & _).
  - unfold MAX_RETRIES. lia.
  - intros i Hi. lia.
  - reflexivity.
  - reflexivity.
  - reflexivity.
  - intros i _. reflexivity.
  - split; [exact Hres | exact Hcalls].
Defined.

(** ** The result loop *)

Lemma length_append (s t : string) :
  String.length (s +:+ t) = String.length s + String.length t.
Proof.
  induction s as [|a s IH]; [done|].
  change (String a s +:+ t) with (String a (s +:+ t)). cbn. by rewrite IH.
Qed.

Lemma append_suffix_inj (t s1 s2 : string) : s1 +:+ t = s2 +:+ t → s1 = s2.
Proof.
  revert s2. induction s1 as [|a s1 IH]; intros [|b s2] H.
  - done.
  - apply (f_equal String.length) in H.
    rewrite !length_append in H. cbn in H. lia.
  - apply (f_equal String.length) in H.
    rewrite !length_append in H. cbn in H. lia.
  - change (String a (s1 +:+ t) = String b (s2 +:+ t)) in H.
    injection H as -> H. f_equal. by apply IH.
Qed.

Global Instance xlsx_name_inj : Inj (=) (=) (λ s : string, s +:+ ".xlsx").
Proof. intros s1 s2. apply append_suffix_inj. Qed.

Lemma result_loop_state results st :
  (result_loop results st).1
  = foldl (λ s o, record_outcome o s) st (consumed results).
Proof.
  revert st. induction results as [|[o|e] results IH]; intros st; cbn; auto.
Qed.

Lemma result_loop_done results st st' :
  result_loop results st = (st', LoopDone) →
  results = Returned <$> consumed results.
Proof.
  revert st. induction results as [|[o|e] results IH]; intros st H; cbn in *.
  - done.
  - f_equal. eauto.
  - done.
Qed.

Lemma result_loop_all_returned os st :
  result_loop (Returned <$> os) st
  = (foldl (λ s o, record_outcome o s) st os, LoopDone).
Proof. revert st. induction os as [|o os IH]; intros st; cbn; auto. Qed.

Lemma record_outcome_lists o st :
  success_list (record_outcome o st)
    = success_list st ++ (symbol_of <$> filter is_success [o])
  ∧ failed_list (record_outcome o st)
    = failed_list st ++ (symbol_of <$> filter (λ o, ¬ is_success o) [o])
  ∧ failed_details (record_outcome o st)
    = failed_details st
        ++ ((λ o, (symbol_of o, o.2)) <$> filter (λ o, ¬ is_success o) [o])
  ∧ zip_buf (record_outcome o st)
    = zip_buf st ++ (archive_entry <$> filter is_success [o]).
Proof.
  destruct o as [[symbol dat] err].
  unfold record_outcome, is_success, archive_entry, symbol_of.
  rewrite !filter_cons, !filter_nil. cbn [fst snd].
  destruct (truthy_bytes dat) eqn:Hd; cbn;
    repeat case_decide; try done; cbn; rewrite ?app_nil_r; done.
Qed.

Lemma record_fold_lists os st :
  let st' := foldl (λ s o, record_outcome o s) st os in
  success_list st' = success_list st ++ (symbol_of <$> filter is_success os)
  ∧ failed_list st'
    = failed_list st ++ (symbol_of <$> filter (λ o, ¬ is_success o) os)
  ∧ failed_details st'
    = failed_details st
        ++ ((λ o, (symbol_of o, o.2)) <$> filter (λ o, ¬ is_success o) os)
  ∧ zip_buf st' = zip_buf st ++ (archive_entry <$> filter is_success os).
Proof.
  revert st. induction os as [|o os IH]; intros st; cbn zeta.
  - rewrite !filter_nil. cbn. by rewrite !app_nil_r.
  - cbn [foldl].
    destruct (IH (record_outcome o st)) as (-> & -> & -> & ->).
    destruct (record_outcome_lists o st) as (-> & -> & -> & ->).
    rewrite !(filter_cons _ o os), !filter_cons, !filter_nil.
    repeat case_decide; cbn; rewrite <- ?app_assoc; done.
Qed.

Lemma download_symbol_symbol to_excel smart r FROM TO o :
  (download_symbol to_excel (smart, r, FROM, TO)).1 = Returned o →
  symbol_of o = TradingSymbol r.
Proof.
  unfold download_symbol.
  destruct (get_candles_with_retry _ _) as [[rsp|] tr]; cbn.
  - destruct (data rsp) as [|[|row0 rows]]; cbn; try by intros [= <-].
    destruct (DataFrame _ _) as [df|]; cbn; [|done].
    destruct (to_excel df); cbn; [|done]. by intros [= <-].
  - by intros [= <-].
Qed.

Lemma map_download_symbols to_excel smart rows FROM TO os :
  map_download to_excel (make_args smart rows FROM TO) = Returned <$> os →
  symbol_of <$> os = TradingSymbol <$> rows.
Proof.
  revert os. induction rows as [|r rows IH]; intros [|o os] H; try done.
  change ((download_symbol to_excel (smart, r, FROM, TO)).1
            :: map_download to_excel (make_args smart rows FROM TO)
          = Returned o :: (Returned <$> os)) in H.
  injection H as Ho H. rewrite !fmap_cons. f_equal.
  - by eapply download_symbol_symbol.
  - by apply IH.
Qed.

(** What a loop that ran to its end leaves in the globals. *)
Lemma pipeline_loop_done to_excel smart rows FROM TO st :
  pipeline_loop to_excel smart rows FROM TO = (st, LoopDone) →
  ∃ os,
    symbol_of <$> os = TradingSymbol <$> rows
    ∧ success_list st = symbol_of <$> filter is_success os
    ∧ failed_list st = symbol_of <$> filter (λ o, ¬ is_success o) os
    ∧ failed_details st
      = (λ o, (symbol_of o, o.2)) <$> filter (λ o, ¬ is_success o) os
    ∧ zip_buf st = archive_entry <$> filter is_success os.
Proof.
  unfold pipeline_loop. intros H.
  pose proof (result_loop_done _ _ _ H) as Hres.
  pose proof (result_loop_state
    (map_download to_excel (make_args smart rows FROM TO)) initial_state) as Hst.
  rewrite H in Hst. cbn [fst] in Hst.
  exists (consumed (map_download to_excel (make_args smart rows FROM TO))).
  split; [by eapply map_download_symbols|].
  rewrite Hst.
  destruct (record_fold_lists
    (consumed (map_download to_excel (make_args smart rows FROM TO)))
    initial_state) as (-> & -> & -> & ->).
  done.
Qed.

(** The loop runs to its end when no call raises. *)
Lemma pipeline_loop_completes to_excel smart rows FROM TO :
  (∀ r, r ∈ rows →
        ∃ o, (download_symbol to_excel (smart, r, FROM, TO)).1 = Returned o) →
  ∃ st, pipeline_loop to_excel smart rows FROM TO = (st, LoopDone).
Proof.
  intros Hret. unfold pipeline_loop.
  assert (∃ os, map_download to_excel (make_args smart rows FROM TO)
                = Returned <$> os) as [os ->].
  { induction rows as [|r rows IH].
    - by exists [].
    - destruct IH as [os Hos]; [intros r' Hr'; apply Hret; by right|].
      destruct (Hret r) as [o Ho]; [by left|].
      exists (o :: os).
      change (map_download to_excel (make_args smart (r :: rows) FROM TO))
        with ((download_symbol to_excel (smart, r, FROM, TO)).1
                :: map_download to_excel (make_args smart rows FROM TO)).
      by rewrite Ho, Hos. }
  rewrite result_loop_all_returned. eauto.
Qed.

Lemma recorded_lists_disjoint to_excel smart rows FROM TO st :
  NoDup (TradingSymbol <$> rows) →
  pipeline_loop to_excel smart rows FROM TO = (st, LoopDone) →
  (∀ s, s ∈ success_list st → s ∉ failed_list st) ∧ NoDup (success_list st).
Proof.
  intros Hnd Hdone.
  destruct (pipeline_loop_done _ _ _ _ _ _ Hdone) as (os & Hsym & Hs & Hf & _).
  assert (NoDup (success_list st ++ failed_list st)) as Hnd'.
  { rewrite Hs, Hf, <- fmap_app.
    rewrite (filter_app_complement (λ o, is_success o) os). by rewrite Hsym. }
  apply NoDup_app in Hnd' as (? & ? & ?). done.
Qed.

(** C1. After a loop that ran to its end over rows with pairwise distinct
    symbols, [len(success_list) + len(failed_list)] is the number of tasks,
    no symbol is in both lists, no symbol is twice in either list, and the
    two lists together hold exactly the symbols of the tasks. *)
Theorem every_task_recorded_once to_excel smart rows FROM TO st :
  NoDup (TradingSymbol <$> rows) →
  pipeline_loop to_excel smart rows FROM TO = (st, LoopDone) →
  length (success_list st) + length (failed_list st) = length rows
  ∧ (∀ s, s ∈ success_list st → s ∉ failed_list st)
  ∧ NoDup (success_list st)
  ∧ NoDup (failed_list st)
  ∧ success_list st ++ failed_list st ≡ₚ TradingSymbol <$> rows.
Proof.
  intros Hnd Hdone.
  destruct (pipeline_loop_done _ _ _ _ _ _ Hdone) as (os & Hsym & Hs & Hf & _).
  assert (success_list st ++ failed_list st ≡ₚ TradingSymbol <$> rows) as Hperm.
  { rewrite Hs, Hf, <- fmap_app, <- Hsym.
    by rewrite (filter_app_complement (λ o, is_success o) os). }
  assert (NoDup (success_list st ++ failed_list st)) as Hnd'
    by by rewrite Hperm.
  apply NoDup_app in Hnd' as (? & ? & ?).
  split_and!; try done.
  rewrite <- length_app, Hperm. by rewrite length_fmap.
Qed.

Lemma every_task_recorded_once_witness :
  length (success_list (pipeline_loop excel_ok smart_AB [row_A; row_B; row_C]
            "2024-10-11 09:15" "2025-01-09 15:30").1)
  + length (failed_list (pipeline_loop excel_ok smart_AB [row_A; row_B; row_C]
            "2024-10-11 09:15" "2025-01-09 15:30").1) = 3.
Proof.
  pose proof (every_task_recorded_once excel_ok smart_AB [row_A; row_B; row_C]
    "2024-10-11 09:15" "2025-01-09 15:30"
    (pipeline_loop excel_ok smart_AB [row_A; row_B; row_C]
       "2024-10-11 09:15" "2025-01-09 15:30").1) as H.
  destruct H as (Hlen & _).
  - compute_done.
  - vm_compute. reflexivity.
  - exact Hlen.
Defined.

(** ** The archive *)

Lemma count_not_in (names : list string) (n : string) :
  n ∉ names → filter (λ m, m = n) names = [].
Proof.
  induction names as [|m names IH]; intros Hn; [done|].
  apply not_elem_of_cons in Hn as [Hne Hn].
  rewrite filter_cons, decide_False by done. auto.
Qed.

Lemma count_in_NoDup (names : list string) (n : string) :
  NoDup names → n ∈ names → length (filter (λ m, m = n) names) = 1.
Proof.
  induction 1 as [|m names Hm Hnd IH]; intros Hin.
  - by apply elem_of_nil in Hin.
  - rewrite filter_cons. apply elem_of_cons in Hin as [->|Hin].
    + rewrite decide_True by done. cbn. by rewrite count_not_in.
    + rewrite decide_False by (intros ->; done). auto.
Qed.

(** C5 as stated fails for a run in which two tasks carry the same symbol:
    the first succeeds, the second finds no data, the loop runs to its end,
    and the symbol is in [failed_list] while the archive holds its entry.
    The code never checks that the symbols differ. *)
Lemma failed_symbol_with_an_entry :
  (pipeline_loop excel_ok smart_AB [row_A; row_A_again]
     "2024-10-11 09:15" "2025-01-09 15:30").2 = LoopDone
  ∧ ¬ (∀ s,
         s ∈ failed_list (pipeline_loop excel_ok smart_AB [row_A; row_A_again]
                            "2024-10-11 09:15" "2025-01-09 15:30").1 →
         s +:+ ".xlsx"
           ∉ (zip_buf (pipeline_loop excel_ok smart_AB [row_A; row_A_again]
                         "2024-10-11 09:15" "2025-01-09 15:30").1).*1).
Proof.
  split; [reflexivity|]. intros H.
  apply (H "SENSEX2510980000CE"); vm_compute; by left.
Qed.

(** C5, amended. After a loop that ran to its end over tasks with pairwise
    distinct symbols, the names of the archive entries are the names
    ["<symbol>.xlsx"] of the symbols of [success_list], in the same order;
    each such name occurs exactly once; and no entry is named after a
    symbol of [failed_list]. *)
Theorem archive_holds_exactly_the_successes to_excel smart rows FROM TO st :
  NoDup (TradingSymbol <$> rows) →
  pipeline_loop to_excel smart rows FROM TO = (st, LoopDone) →
  (zip_buf st).*1 = (λ s, s +:+ ".xlsx") <$> success_list st
  ∧ (∀ s, s ∈ success_list st →
          length (filter (λ n, n = s +:+ ".xlsx") (zip_buf st).*1) = 1)
  ∧ (∀ s, s ∈ failed_list st → s +:+ ".xlsx" ∉ (zip_buf st).*1).
Proof.
  intros Hnd Hdone.
  destruct (recorded_lists_disjoint to_excel smart rows FROM TO st Hnd Hdone)
    as (Hdisj & Hnds).
  destruct (pipeline_loop_done _ _ _ _ _ _ Hdone) as (os & _ & Hs & _ & _ & Hz).
  assert ((zip_buf st).*1 = (λ s, s +:+ ".xlsx") <$> success_list st) as Hnames.
  { rewrite Hz, Hs, <- !list_fmap_compose. done. }
  split_and!; [done|..].
  - intros s Hin. apply count_in_NoDup.
    + rewrite Hnames. by apply (NoDup_fmap_2 _).
    + rewrite Hnames.
      by apply (list_elem_of_fmap_2 (λ s : string, s +:+ ".xlsx")).
  - intros s Hin. rewrite Hnames. intros Hin'.
    apply (list_elem_of_fmap_inj_2 (λ s : string, s +:+ ".xlsx")) in Hin'.
    by eapply Hdisj.
Qed.

Lemma archive_holds_exactly_the_successes_witness :
  (zip_buf (pipeline_loop excel_ok smart_AB [row_A; row_B; row_C]
              "2024-10-11 09:15" "2025-01-09 15:30").1).*1
  = ["SENSEX2510980000CE.xlsx"; "SENSEX2510980000PE.xlsx"]
  ∧ failed_list (pipeline_loop excel_ok smart_AB [row_A; row_B; row_C]
                   "2024-10-11 09:15" "2025-01-09 15:30").1
    = ["SENSEX2510980100CE"].
Proof.
  pose proof (archive_holds_exactly_the_successes excel_ok smart_AB
    [row_A; row_B; row_C] "2024-10-11 09:15" "2025-01-09 15:30"
    (pipeline_loop excel_ok smart_AB [row_A; row_B; row_C]
       "2024-10-11 09:15" "2025-01-09 15:30").1) as H.
  destruct H as (Hnames & _).
  - compute_done.
  - vm_compute. reflexivity.
  - split; [rewrite Hnames|]; vm_compute; reflexivity.
Defined.

(** ** The upload gate *)

Lemma urlopen_sends fuel method r endpoint k :
  send_request k ∈ (urlopen (S fuel) method r endpoint k).2.
Proof.
  cbn [urlopen].
  assert (∀ e,
    send_request k ∈
      (match urllib3.increment r with
       | None => (Raised e, [send_request k])
       | Some r' =>
         let '(res, tr) := urlopen fuel method r' endpoint (S k) in
         (res, send_request k :: backoff (urllib3.get_backoff_time r') :: tr)
       end).2) as Hagain.
  { intros e. destruct (urllib3.increment r) as [r'|]; [|by left].
    destruct (urlopen fuel method r' endpoint (S k)) as [res tr]. by left. }
  destruct (endpoint k) as [| |code ra|]; try apply Hagain; try by left.
  - destruct (urllib3.is_method_retryable r method);
      [apply Hagain | by left].
  - destruct (urllib3.is_retry r method code ra);
      [apply Hagain | by left].
Qed.

(** C6. [send_zip_to_telegram] is called exactly when the loop ran to its
    end and left [success_list] non-empty, and then once, with the archive
    of the globals and the name made from the date.  In that case the
    files, the requests sent and the exit status of the run are those of
    that call, and with the temporary file in place a request does go out.
    In every other case no upload is attempted: no file is touched and no
    request is sent.  With no task the run ends at once with empty lists,
    no upload and exit code 0. *)
Theorem upload_iff_a_success to_excel smart rows FROM TO ddmmyy env fs :
  (upload_calls (main to_excel smart rows FROM TO ddmmyy env fs) ≠ []
   ↔ (pipeline_loop to_excel smart rows FROM TO).2 = LoopDone
     ∧ success_list (pipeline_loop to_excel smart rows FROM TO).1 ≠ [])
  ∧ length (upload_calls (main to_excel smart rows FROM TO ddmmyy env fs)) ≤ 1
  ∧ globals (main to_excel smart rows FROM TO ddmmyy env fs)
    = (pipeline_loop to_excel smart rows FROM TO).1
  ∧ (∀ call,
       call ∈ upload_calls (main to_excel smart rows FROM TO ddmmyy env fs) →
       call.1 = zip_buf (globals (main to_excel smart rows FROM TO ddmmyy env fs)))
  ∧ main to_excel smart [] FROM TO ddmmyy env fs
    = {| globals := initial_state; files := fs; upload_calls := [];
         upload_trace := []; exit_status := Exit 0 |}
  ∧ ((pipeline_loop to_excel smart rows FROM TO).2 = LoopDone →
     success_list (pipeline_loop to_excel smart rows FROM TO).1 ≠ [] →
     upload_calls (main to_excel smart rows FROM TO ddmmyy env fs)
       = [(zip_buf (pipeline_loop to_excel smart rows FROM TO).1,
           "SENSEX_expiry_" +:+ ddmmyy +:+ "_1min.zip")]
     ∧ files (main to_excel smart rows FROM TO ddmmyy env fs)
       = (send_zip_to_telegram env fs
            (zip_buf (pipeline_loop to_excel smart rows FROM TO).1)
            ("SENSEX_expiry_" +:+ ddmmyy +:+ "_1min.zip")).1.2
     ∧ upload_trace (main to_excel smart rows FROM TO ddmmyy env fs)
       = (send_zip_to_telegram env fs
            (zip_buf (pipeline_loop to_excel smart rows FROM TO).1)
            ("SENSEX_expiry_" +:+ ddmmyy +:+ "_1min.zip")).2
     ∧ exit_status (main to_excel smart rows FROM TO ddmmyy env fs)
       = main_guard
           (send_zip_to_telegram env fs
              (zip_buf (pipeline_loop to_excel smart rows FROM TO).1)
              ("SENSEX_expiry_" +:+ ddmmyy +:+ "_1min.zip")).1.1
     ∧ (tmp_create env = true → tmp_write env = true → tmp_open env = true →
        send_request 0
          ∈ upload_trace (main to_excel smart rows FROM TO ddmmyy env fs)))
  ∧ (¬ ((pipeline_loop to_excel smart rows FROM TO).2 = LoopDone
        ∧ success_list (pipeline_loop to_excel smart rows FROM TO).1 ≠ []) →
     upload_calls (main to_excel smart rows FROM TO ddmmyy env fs) = []
     ∧ files (main to_excel smart rows FROM TO ddmmyy env fs) = fs
     ∧ upload_trace (main to_excel smart rows FROM TO ddmmyy env fs) = []
     ∧ exit_status (main to_excel smart rows FROM TO ddmmyy env fs)
       = match (pipeline_loop to_excel smart rows FROM TO).2 with
         | LoopDone => Exit 0
         | LoopRaised e => main_guard (@Raised unit e)
         end).
Proof.
  unfold main.
  destruct (pipeline_loop to_excel smart rows FROM TO) as [st [|e]]; cbn [fst snd].
  - destruct (success_list st) as [|s ss] eqn:Hs.
    + cbn. split_and!; try done; try lia.
      * split; [done|]. by intros [_ ?].
      * intros call Hc. by apply elem_of_nil in Hc.
    + assert (tmp_create env = true → tmp_write env = true →
              tmp_open env = true →
              send_request 0
                ∈ (send_zip_to_telegram env fs (zip_buf st)
                     ("SENSEX_expiry_" +:+ ddmmyy +:+ "_1min.zip")).2) as Hsent.
      { intros Hc Hw Ho. unfold send_zip_to_telegram. rewrite Hc, Hw, Ho.
        cbn [negb]. unfold session_post.
        pose proof (urlopen_sends (urllib3.total retries) "POST" retries
                      (endpoint env) 0) as Hin.
        destruct (urlopen (S (urllib3.total retries)) "POST" retries
                    (endpoint env) 0) as [[code|e] tr]; [|done].
        by destruct (raise_for_status code). }
      destruct (send_zip_to_telegram env fs (zip_buf st) _) as [[r fs'] tr].
      cbn. split_and!; try done; try lia.
      * intros call Hc. apply list_elem_of_singleton in Hc as ->. done.
      * intros Hno. by destruct Hno.
  - cbn. split_and!; try done; try lia.
    + split; [done|]. by intros [? _].
    + intros call Hc. by apply elem_of_nil in Hc.
Qed.

Lemma upload_iff_a_success_witness :
  upload_calls (main excel_ok smart_AB [row_A; row_B; row_C]
    "2024-10-11 09:15" "2025-01-09 15:30" "090125"
    (env_of true true endpoint_ok) ∅) ≠ []
  ∧ send_request 0
    ∈ upload_trace (main excel_ok smart_AB [row_A; row_B; row_C]
        "2024-10-11 09:15" "2025-01-09 15:30" "090125"
        (env_of true true endpoint_ok) ∅)
  ∧ upload_trace (main excel_ok smart_down [row_A; row_B; row_C]
      "2024-10-11 09:15" "2025-01-09 15:30" "090125"
      (env_of true true endpoint_ok) ∅) = [].
Proof.
  destruct (upload_iff_a_success excel_ok smart_AB [row_A; row_B; row_C]
      "2024-10-11 09:15" "2025-01-09 15:30" "090125"
      (env_of true true endpoint_ok) ∅)
    as (Hiff & _ & _ & _ & _ & Hcall & _).
  destruct (upload_iff_a_success excel_ok smart_down [row_A; row_B; row_C]
      "2024-10-11 09:15" "2025-01-09 15:30" "090125"
      (env_of true true endpoint_ok) ∅)
    as (_ & _ & _ & _ & _ & _ & Hnone).
  split_and!.
  - apply Hiff. split; [reflexivity|]. vm_compute. discriminate.
  - destruct Hcall as (_ & _ & _ & _ & Hsent);
      [reflexivity | vm_compute; discriminate |].
    apply Hsent; reflexivity.
  - destruct Hnone as (_ & _ & Htr & _); [|exact Htr].
    intros [_ Hs]. apply Hs. reflexivity.
Defined.

(** ** The upload *)

Lemma urlopen_attempts_le fuel method r endpoint k :
  upload_attempts (urlopen fuel method r endpoint k).2 ≤ fuel.
Proof.
  revert r k. induction fuel as [|fuel IH]; intros r k; [done|].
  cbn [urlopen].
  assert (∀ e,
    upload_attempts
      (match urllib3.increment r with
       | None => (Raised e, [send_request k])
       | Some r' =>
         let '(res, tr) := urlopen fuel method r' endpoint (S k) in
         (res, send_request k :: backoff (urllib3.get_backoff_time r') :: tr)
       end).2 ≤ S fuel) as Hagain.
  { intros e. destruct (urllib3.increment r) as [r'|]; [|cbn; lia].
    specialize (IH r' (S k)).
    destruct (urlopen fuel method r' endpoint (S k)) as [res tr].
    unfold upload_attempts in *. cbn in *. lia. }
  destruct (endpoint k) as [| |code ra|]; try apply Hagain; try (cbn; lia).
  - destruct (urllib3.is_method_retryable r method);
      [apply Hagain | cbn; lia].
  - destruct (urllib3.is_retry r method code ra);
      [apply Hagain | cbn; lia].
Qed.

Example status_429_is_not_retried_for_POST :
  session_post retries endpoint_busy = (Returned 429, [send_request 0]).
Proof. reflexivity. Qed.

Lemma increment_Some r r' :
  urllib3.increment r = Some r' →
  urllib3.total r = S (urllib3.total r')
  ∧ urllib3.history r' = S (urllib3.history r)
  ∧ urllib3.backoff_factor r' = urllib3.backoff_factor r
  ∧ urllib3.backoff_max r' = urllib3.backoff_max r
  ∧ urllib3.allowed_methods r' = urllib3.allowed_methods r.
Proof.
  unfold urllib3.increment. destruct (urllib3.total r) eqn:Ht; [done|].
  intros [= <-]. done.
Qed.

(** The fuel given by [session_post] is never used up: any larger amount
    gives the same run. *)
Lemma urlopen_fuel_enough fuel fuel' method r endpoint k :
  urllib3.total r < fuel → urllib3.total r < fuel' →
  urlopen fuel method r endpoint k = urlopen fuel' method r endpoint k.
Proof.
  revert fuel' r k. induction fuel as [|fuel IH]; intros [|fuel'] r k H H';
    try lia.
  cbn [urlopen].
  assert (∀ e,
    match urllib3.increment r with
    | None => (Raised e, [send_request k])
    | Some r' =>
      let '(res, tr) := urlopen fuel method r' endpoint (S k) in
      (res, send_request k :: backoff (urllib3.get_backoff_time r') :: tr)
    end
    = match urllib3.increment r with
      | None => (Raised e, [send_request k])
      | Some r' =>
        let '(res, tr) := urlopen fuel' method r' endpoint (S k) in
        (res, send_request k :: backoff (urllib3.get_backoff_time r') :: tr)
      end) as Hagain.
  { intros e. destruct (urllib3.increment r) as [r'|] eqn:Hinc; [|done].
    destruct (increment_Some _ _ Hinc) as (Ht & _).
    rewrite (IH fuel' r' (S k)) by lia. done. }
  destruct (endpoint k) as [| |code ra|]; try done.
  - by destruct (urllib3.is_method_retryable r method).
  - by destruct (urllib3.is_retry r method code ra).
Qed.

Lemma urlopen_delays fuel method r endpoint k :
  urllib3.backoff_factor r = 2 → urllib3.backoff_max r = 120 →
  upload_delays (urlopen fuel method r endpoint k).2
    `prefix_of` (backoff_before_retry
                   <$> seq (S (urllib3.history r)) (urllib3.total r)).
Proof.
  revert r k. induction fuel as [|fuel IH]; intros r k Hf Hm;
    [apply prefix_nil|].
  cbn [urlopen].
  assert (∀ e,
    upload_delays
      (match urllib3.increment r with
       | None => (Raised e, [send_request k])
       | Some r' =>
         let '(res, tr) := urlopen fuel method r' endpoint (S k) in
         (res, send_request k :: backoff (urllib3.get_backoff_time r') :: tr)
       end).2
    `prefix_of` (backoff_before_retry
                   <$> seq (S (urllib3.history r)) (urllib3.total r)))
    as Hagain.
  { intros e. destruct (urllib3.increment r) as [r'|] eqn:Hinc;
      [|apply prefix_nil].
    destruct (increment_Some _ _ Hinc) as (Ht & Hh & Hf' & Hm' & _).
    specialize (IH r' (S k)). rewrite Hf', Hm', Hh in IH.
    specialize (IH Hf Hm).
    destruct (urlopen fuel method r' endpoint (S k)) as [res tr].
    rewrite Ht. cbn [seq fmap list_fmap snd] in *.
    unfold upload_delays in *. cbn [omap list_omap].
    replace (urllib3.get_backoff_time r')
      with (backoff_before_retry (S (urllib3.history r))).
    - by apply prefix_cons.
    - unfold urllib3.get_backoff_time, backoff_before_retry.
      by rewrite Hh, Hf', Hm', Hf, Hm. }
  destruct (endpoint k) as [| |code ra|];
    try apply Hagain; try apply prefix_nil.
  - destruct (urllib3.is_method_retryable r method);
      [apply Hagain | apply prefix_nil].
  - destruct (urllib3.is_retry r method code ra);
      [apply Hagain | apply prefix_nil].
Qed.

Lemma urlopen_response_is_final fuel method r endpoint k0 k code ra :
  urllib3.is_method_retryable r method = false →
  k0 ≤ k → endpoint k = HttpStatus code ra →
  send_request (S k) ∉ (urlopen fuel method r endpoint k0).2.
Proof.
  revert r k0. induction fuel as [|fuel IH]; intros r k0 Hm Hk Hresp;
    [apply not_elem_of_nil|].
  cbn [urlopen].
  assert (urllib3.is_retry r method code ra = false) as Hnr
    by (unfold urllib3.is_retry; by rewrite Hm).
  assert (∀ j : nat, j ≤ k → send_request (S k) ∉ [send_request j]) as Hone.
  { intros j Hj [=]%list_elem_of_singleton. lia. }
  assert (∀ e, k0 < k →
    send_request (S k) ∉
      (match urllib3.increment r with
       | None => (Raised e, [send_request k0])
       | Some r' =>
         let '(res, tr) := urlopen fuel method r' endpoint (S k0) in
         (res, send_request k0 :: backoff (urllib3.get_backoff_time r') :: tr)
       end).2) as Hagain.
  { intros e Hlt. destruct (urllib3.increment r) as [r'|] eqn:Hinc;
      [|apply Hone; lia].
    destruct (increment_Some _ _ Hinc) as (_ & _ & _ & _ & Ha).
    specialize (IH r' (S k0)).
    unfold urllib3.is_method_retryable in IH, Hm. rewrite Ha in IH.
    specialize (IH Hm Hlt Hresp).
    destruct (urlopen fuel method r' endpoint (S k0)) as [res tr].
    cbn [snd] in *. intros Hin.
    apply elem_of_cons in Hin as [[=]|Hin]; [lia|].
    apply elem_of_cons in Hin as [[=]|Hin]; done. }
  destruct (decide (k0 = k)) as [->|Hne].
  - rewrite Hresp, Hnr. by apply Hone.
  - assert (k0 < k) as Hlt by lia.
    destruct (endpoint k0) as [| |code' ra'|]; try (by apply Hagain);
      try (apply Hone; lia).
    + rewrite Hm. apply Hone; lia.
    + destruct (urllib3.is_retry r method code' ra');
        [by apply Hagain | apply Hone; lia].
Qed.

Lemma send_zip_trace env fs zip_bytes name :
  (send_zip_to_telegram env fs zip_bytes name).2 = []
  ∨ (send_zip_to_telegram env fs zip_bytes name).2
    = (session_post retries (endpoint env)).2.
Proof.
  unfold send_zip_to_telegram.
  destruct (tmp_create env); cbn [negb]; [|by left].
  destruct (tmp_write env); cbn [negb]; [|by left].
  destruct (tmp_open env); cbn [negb]; [|by left].
  right. destruct (session_post retries (endpoint env)) as [[code|e] tr];
    [|done].
  by destruct (raise_for_status code).
Qed.

(** C7 as stated fails: against an endpoint that refuses every connection
    the upload makes six attempts, the first and the five retries that
    [Retry(total=5)] allows. *)
Lemma sixth_upload_attempt :
  ¬ (upload_attempts
       (send_zip_to_telegram (env_of true true endpoint_down) ∅ []
          "SENSEX_expiry_090125_1min.zip").2 ≤ 5).
Proof.
  destruct (send_zip_trace (env_of true true endpoint_down) ∅ []
              "SENSEX_expiry_090125_1min.zip") as [H|H].
  - exfalso. revert H. unfold send_zip_to_telegram. cbn. done.
  - rewrite H. cbn. lia.
Qed.

(** Once the archive has been written to the temporary file, every way
    out of [send_zip_to_telegram] goes through the [finally] of line 227,
    which removes the file: the function returns [True] (upload accepted),
    returns [False] (the file cannot be reopened, retries exhausted, error
    status, any other [Exception]) or lets an exception that is not an
    [Exception] propagate, and in each case the file is gone. *)
Lemma temp_file_removed_after_transfer env fs zip_bytes name :
  tmp_create env = true → tmp_write env = true →
  (tmp_name env ∉ (send_zip_to_telegram env fs zip_bytes name).1.2)
  ∧ ((send_zip_to_telegram env fs zip_bytes name).1.1 = Returned true
     ∨ (send_zip_to_telegram env fs zip_bytes name).1.1 = Returned false
     ∨ (send_zip_to_telegram env fs zip_bytes name).1.1
       = Raised KeyboardInterrupt).
Proof.
  intros Hc Hw. unfold send_zip_to_telegram. rewrite Hc, Hw. cbn [negb].
  destruct (if negb (tmp_open env) then _ else _) as [body tr] eqn:Hbody.
  cbn [fst snd]. split.
  - apply not_elem_of_difference. right. by apply elem_of_singleton.
  - destruct body as [[|]|[]]; cbn; auto.
Qed.

(** The [with] block of lines 206-208 is not under that [finally]: when
    the file was created and [tmp.write] raises, the exception leaves the
    function with the file in place and no request was sent. *)
Lemma temp_file_left_by_failed_write env fs zip_bytes name :
  tmp_create env = true → tmp_write env = false →
  send_zip_to_telegram env fs zip_bytes name
  = (Raised OSError, fs ∪ {[tmp_name env]}, []).
Proof.
  intros Hc Hw. unfold send_zip_to_telegram. by rewrite Hc, Hw.
Qed.

(** C8. The code breaks the claim on one exit path.  The temporary file is
    created with [delete=False] and written on lines 206-208, before the
    [try] whose [finally] removes it.  When [tmp.write] raises (a full
    disk, say) [OSError] leaves [send_zip_to_telegram], no request is
    sent, and the file created for the archive is still there.  On the
    sibling paths the same function does remove it: when the written file
    cannot be reopened, and when every connection is refused, it returns
    [False] with the file gone. *)
Theorem write_failure_leaves_the_temp_file :
  send_zip_to_telegram (env_of true false endpoint_ok) ∅
    [("SENSEX2510980000CE.xlsx", [Byte.x50; Byte.x4b])] "SENSEX_expiry_090125_1min.zip"
  = (Raised OSError, {[tmp_name (env_of true false endpoint_ok)]}, [])
  ∧ tmp_name (env_of true false endpoint_ok)
    ∈ (send_zip_to_telegram (env_of true false endpoint_ok) ∅
         [("SENSEX2510980000CE.xlsx", [Byte.x50; Byte.x4b])]
         "SENSEX_expiry_090125_1min.zip").1.2
  ∧ (let unreadable :=
       {| tmp_name := "/tmp/tmpk3v9x2ab"; tmp_create := true;
          tmp_write := true; tmp_open := false; endpoint := endpoint_ok |} in
     (send_zip_to_telegram unreadable ∅
        [("SENSEX2510980000CE.xlsx", [Byte.x50; Byte.x4b])]
        "SENSEX_expiry_090125_1min.zip").1.1 = Returned false
     ∧ tmp_name unreadable
       ∉ (send_zip_to_telegram unreadable ∅
            [("SENSEX2510980000CE.xlsx", [Byte.x50; Byte.x4b])]
            "SENSEX_expiry_090125_1min.zip").1.2)
  ∧ (send_zip_to_telegram (env_of true true endpoint_down) ∅
       [("SENSEX2510980000CE.xlsx", [Byte.x50; Byte.x4b])]
       "SENSEX_expiry_090125_1min.zip").1.1 = Returned false
  ∧ tmp_name (env_of true true endpoint_down)
    ∉ (send_zip_to_telegram (env_of true true endpoint_down) ∅
         [("SENSEX2510980000CE.xlsx", [Byte.x50; Byte.x4b])]
         "SENSEX_expiry_090125_1min.zip").1.2.
Proof.
  assert (send_zip_to_telegram (env_of true false endpoint_ok) ∅
    [("SENSEX2510980000CE.xlsx", [Byte.x50; Byte.x4b])] "SENSEX_expiry_090125_1min.zip"
  = (Raised OSError, {[tmp_name (env_of true false endpoint_ok)]}, []))
    as Hleak.
  { rewrite temp_file_left_by_failed_write by reflexivity.
    by rewrite (left_id_L ∅ (∪)). }
  split_and!.
  - exact Hleak.
  - rewrite Hleak. cbn [fst snd]. by apply elem_of_singleton.
  - cbn zeta. split; [reflexivity|].
    by apply temp_file_removed_after_transfer.
  - reflexivity.
  - by apply temp_file_removed_after_transfer.
Qed.

(** ** The worker pool *)

Section PoolFacts.

Variable to_excel : frame → result bytes.
Variable args : list (SmartConnect * row * string * string).


Lemma sequential_run_result_loop todo st :
  sequential_run to_excel todo st
  = result_loop (map_download to_excel todo) st.
Proof.
  revert st. induction todo as [|a todo IH]; intros st; [done|].
  change (map_download to_excel (a :: todo))
    with ((download_symbol to_excel a).1 :: map_download to_excel todo).
  cbn [sequential_run result_loop].
  destruct (download_symbol to_excel a).1; auto.
Qed.

Lemma length_results : length (results to_excel args) = length args.
Proof. unfold results, map_download. by rewrite length_fmap. Qed.

Lemma results_lookup i a :
  args !! i = Some a →
  results to_excel args !! i = Some (download_symbol to_excel a).1.
Proof.
  intros H. unfold results, map_download.
  by rewrite list_lookup_fmap, H.
Qed.

Lemma recorded_snoc os o :
  recorded (os ++ [o]) = record_outcome o (recorded os).
Proof. unfold recorded. by rewrite foldl_snoc. Qed.

Lemma result_loop_raised os e rest st :
  result_loop ((Returned <$> os) ++ Raised e :: rest) st
  = (foldl (λ s o, record_outcome o s) st os, LoopRaised e).
Proof. revert st. induction os as [|o os IH]; intros st; cbn; auto. Qed.

Lemma submitted_inv : pool_inv to_excel args (submitted args).
Proof.
  split_and!; cbn; try done.
  - unfold MAX_WORKERS. lia.
  - exists []. split_and!; [done | lia | done].
Qed.

Lemma coordinate_inv σ σ' :
  pool_inv to_excel args σ → coordinate args σ = Some σ' →
  pool_inv to_excel args σ'.
Proof.
  intros (Hlock & Hrun & Hfut & Hco) Hstep.
  unfold coordinate in Hstep. unfold coordinator_inv in Hco.
  destruct (coord σ) as [|symbol|symbol err|ex] eqn:Hc; [| | |done].
  - destruct Hco as (os & Htake & Hle & Hst).
    case_decide as Hn.
    + injection Hstep as <-. split_and!; try done.
      unfold coordinator_inv; cbn.
      rewrite take_ge in Htake by (rewrite length_results; lia).
      rewrite Htake, result_loop_all_returned, Hst. done.
    + destruct (futures σ !! next σ) as [[[[symbol dat] err]|e]|] eqn:Hf;
        [| |done].
      * pose proof (Hfut _ _ Hf) as Hres.
        destruct (truthy_bytes dat) eqn:Hd; injection Hstep as <-;
          (split_and!; try done);
          unfold coordinator_inv; cbn;
          exists os, (symbol, dat, err); rewrite Hst; done.
      * pose proof (Hfut _ _ Hf) as Hres. injection Hstep as <-.
        split_and!; try done.
        unfold coordinator_inv; cbn.
        rewrite <- (take_drop_middle _ _ _ Hres), Htake, result_loop_raised.
        by rewrite Hst.
  - destruct Hco as (os & o & Htake & Hres & Hs & -> & Hst).
    injection Hstep as <-. split_and!; try done.
    unfold coordinator_inv; cbn.
    exists (os ++ [o]). split_and!.
    + by rewrite (take_S_r _ _ _ Hres), Htake, fmap_snoc.
    + apply lookup_lt_Some in Hres. rewrite length_results in Hres. lia.
    + rewrite recorded_snoc, Hst. destruct o as [[symbol dat] err].
      unfold record_outcome, is_success in *. cbn in Hs. by rewrite Hs.
  - destruct Hco as (os & o & Htake & Hres & Hs & -> & -> & Hst).
    injection Hstep as <-. split_and!; try done.
    unfold coordinator_inv; cbn.
    exists (os ++ [o]). split_and!.
    + by rewrite (take_S_r _ _ _ Hres), Htake, fmap_snoc.
    + apply lookup_lt_Some in Hres. rewrite length_results in Hres. lia.
    + rewrite recorded_snoc, Hst. destruct o as [[symbol dat] err].
      unfold record_outcome, is_success in *. cbn in Hs. by rewrite Hs.
Qed.

Lemma exec_inv a σ σ' :
  pool_inv to_excel args σ → exec to_excel args a σ = Some σ' →
  pool_inv to_excel args σ'.
Proof.
  intros Hinv Hstep. destruct a as [|i|]; cbn in Hstep.
  - destruct Hinv as (Hlock & Hrun & Hfut & Hco).
    destruct (queue σ) as [|i q]; [done|].
    case_decide as Hlt; [|done]. injection Hstep as <-.
    split_and!; try done. cbn. rewrite length_app. cbn. lia.
  - destruct Hinv as (Hlock & Hrun & Hfut & Hco).
    case_decide as Hin; [|done].
    destruct (args !! i) as [a|] eqn:Ha; [|done]. injection Hstep as <-.
    split_and!; try done; cbn.
    + etrans; [apply length_filter|done].
    + intros j r. destruct (decide (i = j)) as [<-|Hne].
      * rewrite lookup_insert_eq. intros [= <-]. by apply results_lookup.
      * rewrite lookup_insert_ne by done. apply Hfut.
  - by eapply coordinate_inv.
Qed.

Lemma execs_inv sched σ σ' :
  pool_inv to_excel args σ → execs to_excel args sched σ = Some σ' →
  pool_inv to_excel args σ'.
Proof.
  revert σ. induction sched as [|a sched IH]; intros σ Hinv Hrun; cbn in Hrun.
  - by injection Hrun as <-.
  - destruct (exec to_excel args a σ) as [σ1|] eqn:Hstep; [|done].
    eapply IH; [|done]. by eapply exec_inv.
Qed.

Lemma reachable_inv σ : reachable to_excel args σ → pool_inv to_excel args σ.
Proof. intros [sched Hrun]. eapply execs_inv; [apply submitted_inv|done]. Qed.

Lemma steps_cons a sched σ σ1 :
  exec to_excel args a σ = Some σ1 →
  execs to_excel args (a :: sched) σ = execs to_excel args sched σ1.
Proof. intros H. cbn [execs]. by rewrite H. Qed.

Lemma steps_app sched1 sched2 σ σ1 :
  execs to_excel args sched1 σ = Some σ1 →
  execs to_excel args (sched1 ++ sched2) σ = execs to_excel args sched2 σ1.
Proof.
  revert σ. induction sched1 as [|a sched1 IH]; intros σ H; cbn in H.
  - by injection H as ->.
  - cbn [app execs]. destruct (exec to_excel args a σ) as [σ'|]; [|done]. by apply IH.
Qed.

(** From a state in which the main thread is about to draw result [k], no
    worker is busy and the calls from [k] on are queued, running the calls
    one at a time brings the main thread out of the loop. *)
Lemma finish_one_by_one n σ :
  length args - next σ = n →
  coord σ = AtNext →
  queue σ = seq (next σ) (length args - next σ) →
  running σ = [] →
  next σ ≤ length args →
  ∃ sched σ' ex, execs to_excel args sched σ = Some σ' ∧ coord σ' = Finished ex.
Proof.
  revert σ. induction n as [|n IH]; intros [q run fut k c st lk];
    cbn [next coord queue running]; intros Hn -> Hq -> Hk.
  - exists [Coordinate]. eexists. exists LoopDone. split.
    + cbn. unfold coordinate. cbn. rewrite decide_True by lia. reflexivity.
    + done.
  - assert (k < length args) as Hlt by lia.
    destruct (lookup_lt_is_Some_2 args k Hlt) as [a Ha].
    replace (length args - k) with (S (length args - S k)) in Hq by lia.
    cbn [seq] in Hq. subst q.
    set (r := (download_symbol to_excel a).1).
    set (σ2 := Pool (seq (S k) (length args - S k)) []
                 (<[k := r]> fut) k AtNext st lk).
    assert (execs to_excel args [Take; Finish k]
              (Pool (k :: seq (S k) (length args - S k)) [] fut k AtNext st lk)
            = Some σ2) as H2.
    { cbn. rewrite decide_True by (unfold MAX_WORKERS; lia). cbn.
      rewrite decide_True by (apply list_elem_of_singleton; done).
      rewrite Ha. cbn. rewrite decide_False by (intros H; by apply H).
      done. }
    pose proof (λ sched', steps_app _ sched' _ _ H2) as Hpre.
    destruct r as [[[symbol dat] err]|e] eqn:Hr.
    + assert (∃ st', execs to_excel args [Coordinate; Coordinate] σ2
                = Some (Pool (seq (S k) (length args - S k)) []
                          (<[k := r]> fut) (S k) AtNext st' lk)) as [st' H4].
      { cbn. unfold coordinate. cbn. rewrite decide_False by lia.
        rewrite lookup_insert_eq, Hr.
        destruct (truthy_bytes dat); cbn; eauto. }
      destruct (IH (Pool (seq (S k) (length args - S k)) []
                      (<[k := r]> fut) (S k) AtNext st' lk))
        as (sched & σ' & ex & Hrun & Hfin); cbn; try done; try lia.
      exists ([Take; Finish k] ++ [Coordinate; Coordinate] ++ sched), σ', ex.
      split; [|done]. by rewrite Hpre, (steps_app _ _ _ _ H4).
    + exists ([Take; Finish k] ++ [Coordinate]). eexists. exists (LoopRaised e).
      rewrite Hpre. split.
      * cbn. unfold coordinate. cbn. rewrite decide_False by lia.
        rewrite lookup_insert_eq, Hr. reflexivity.
      * done.
Qed.

Lemma some_schedule_finishes :
  ∃ σ ex, reachable to_excel args σ ∧ coord σ = Finished ex.
Proof.
  destruct (finish_one_by_one (length args) (submitted args))
    as (sched & σ & ex & Hrun & Hfin); cbn; try done; try lia.
  - f_equal. lia.
  - exists σ, ex. split; [by exists sched|done].
Qed.

End PoolFacts.

Lemma download_symbol_task_symbol to_excel a o :
  (download_symbol to_excel a).1 = Returned o → symbol_of o = task_symbol a.
Proof.
  destruct a as [[[smart r] FROM] TO]. apply download_symbol_symbol.
Qed.

Lemma take_results_symbols to_excel args k os :
  take k (results to_excel args) = Returned <$> os →
  symbol_of <$> os = take k (task_symbol <$> args).
Proof.
  unfold results. revert k os.
  induction args as [|a args IH]; intros [|k] [|o os] H; try done.
  change (map_download to_excel (a :: args))
    with ((download_symbol to_excel a).1 :: map_download to_excel args) in H.
  cbn [take] in H. rewrite fmap_cons in H. injection H as Ho H.
  rewrite !fmap_cons. cbn [take]. f_equal.
  - by eapply download_symbol_task_symbol.
  - by apply IH.
Qed.

Lemma consumed_prefix (rs : list (result outcome)) :
  take (length (consumed rs)) rs = Returned <$> consumed rs.
Proof.
  induction rs as [|[o|e] rs IH]; cbn; try done. by rewrite IH.
Qed.

Lemma recorded_symbols (os : list outcome) :
  success_list (recorded os) ++ failed_list (recorded os) ≡ₚ symbol_of <$> os.
Proof.
  unfold recorded.
  destruct (record_fold_lists os initial_state) as (-> & -> & _). cbn.
  rewrite <- fmap_app. by rewrite (filter_app_complement (λ o, is_success o) os).
Qed.

(** What the two lists hold in a reachable state: the symbols of a prefix
    of the tasks, each once. *)
Lemma reachable_lists to_excel args σ :
  reachable to_excel args σ →
  ∃ k, k ≤ length args
       ∧ success_list (run_state σ) ++ failed_list (run_state σ)
         ≡ₚ take k (task_symbol <$> args)
       ∧ (coord σ = AtNext → k = next σ).
Proof.
  intros Hreach. apply reachable_inv in Hreach as (_ & _ & _ & Hco).
  unfold coordinator_inv in Hco.
  destruct (coord σ) as [|symbol|symbol err|ex].
  - destruct Hco as (os & Htake & Hle & ->).
    exists (next σ). split_and!; [done| |done].
    rewrite recorded_symbols. by erewrite take_results_symbols.
  - destruct Hco as (os & o & Htake & Hres & _ & _ & ->).
    exists (next σ). split_and!; [| |done].
    + apply lookup_lt_Some in Hres. rewrite length_results in Hres. lia.
    + cbn. rewrite recorded_symbols. by erewrite take_results_symbols.
  - destruct Hco as (os & o & Htake & Hres & _ & -> & _ & ->).
    exists (S (next σ)). split_and!; [| |done].
    + apply lookup_lt_Some in Hres. rewrite length_results in Hres. lia.
    + cbn. rewrite app_assoc, recorded_symbols.
      rewrite <- (take_results_symbols to_excel args (S (next σ)) (os ++ [o])).
      * by rewrite fmap_snoc.
      * by rewrite (take_S_r _ _ _ Hres), Htake, fmap_snoc.
  - pose proof (result_loop_state (results to_excel args) initial_state) as Hst.
    rewrite Hco in Hst. cbn [fst] in Hst.
    exists (length (consumed (results to_excel args))). split_and!; [| |done].
    + rewrite <- length_results with (to_excel := to_excel).
      rewrite <- (length_fmap Returned), <- consumed_prefix, length_take. lia.
    + rewrite Hst. fold (recorded (consumed (results to_excel args))).
      rewrite recorded_symbols.
      rewrite (take_results_symbols to_excel args
                 (length (consumed (results to_excel args)))
                 (consumed (results to_excel args))); [done|].
      apply consumed_prefix.
Qed.

Lemma finished_is_sequential to_excel args σ ex :
  reachable to_excel args σ → coord σ = Finished ex →
  (run_state σ, ex) = sequential_run to_excel args initial_state.
Proof.
  intros Hreach Hfin. apply reachable_inv in Hreach as (_ & _ & _ & Hco).
  unfold coordinator_inv in Hco. rewrite Hfin in Hco.
  by rewrite sequential_run_result_loop.
Qed.

(** C9. Under every schedule of a pool of at most [MAX_WORKERS] = 3 workers
    in which the main thread leaves the loop, the globals and the way the
    loop ended are those of running the same tasks one after the other in
    input order: the same [success_list] and [failed_list] (as lists, hence
    as multisets) and the same archive entries.  Some schedule does bring
    the main thread out of the loop. *)
Theorem pool_run_equals_sequential_run to_excel args :
  MAX_WORKERS = 3
  ∧ (∃ σ ex, reachable to_excel args σ ∧ coord σ = Finished ex)
  ∧ ∀ σ ex,
      reachable to_excel args σ → coord σ = Finished ex →
      length (running σ) ≤ MAX_WORKERS
      ∧ (run_state σ, ex) = sequential_run to_excel args initial_state
      ∧ success_list (run_state σ)
        ≡ₚ success_list (sequential_run to_excel args initial_state).1
      ∧ failed_list (run_state σ)
        ≡ₚ failed_list (sequential_run to_excel args initial_state).1
      ∧ (∀ entry, entry ∈ zip_buf (run_state σ)
                  ↔ entry ∈ zip_buf (sequential_run to_excel args initial_state).1).
Proof.
  split_and!; [done | apply some_schedule_finishes |].
  intros σ ex Hreach Hfin.
  pose proof (finished_is_sequential _ _ _ _ Hreach Hfin) as Heq.
  apply reachable_inv in Hreach as (_ & Hrun & _).
  rewrite <- Heq. done.
Qed.

Lemma pool_run_equals_sequential_run_witness :
  ∃ σ, execs excel_ok args_ABC schedule_ABC (submitted args_ABC) = Some σ
       ∧ (run_state σ, LoopDone) = sequential_run excel_ok args_ABC initial_state
       ∧ success_list (run_state σ)
         = ["SENSEX2510980000CE"; "SENSEX2510980000PE"].
Proof.
  destruct (execs excel_ok args_ABC schedule_ABC (submitted args_ABC))
    as [σ|] eqn:Hrun; [|by vm_compute in Hrun].
  exists σ. split; [done|].
  assert (coord σ = Finished LoopDone ∧ success_list (run_state σ)
          = ["SENSEX2510980000CE"; "SENSEX2510980000PE"]) as [Hfin Hs].
  { vm_compute in Hrun. injection Hrun as <-. split; reflexivity. }
  split; [|exact Hs].
  destruct (pool_run_equals_sequential_run excel_ok args_ABC) as (_ & _ & H).
  apply (H σ LoopDone); [by exists schedule_ABC | exact Hfin].
Defined.

(** C10 as stated fails: with one task, once the worker has set the future
    the main thread writes the archive entry while nobody holds [zip_lock]
    (no line of the source acquires it). *)
Lemma archive_written_without_the_lock :
  ¬ mutation_under_lock excel_ok args_A.
Proof.
  intros Hlock.
  destruct (execs excel_ok args_A [Take; Finish 0] (submitted args_A))
    as [σ|] eqn:Hrun; [|by vm_compute in Hrun].
  destruct (exec excel_ok args_A Coordinate σ) as [σ'|] eqn:Hstep.
  - assert (zip_lock σ = None) as Hnone
      by (vm_compute in Hrun; by injection Hrun as <-).
    rewrite (Hlock σ Coordinate σ') in Hnone; [done | by eexists | done |].
    vm_compute in Hrun. injection Hrun as <-.
    vm_compute in Hstep. injection Hstep as <-. done.
  - vm_compute in Hrun. injection Hrun as <-. by vm_compute in Hstep.
Qed.

Lemma worker_leaves_the_globals to_excel args a σ σ' :
  exec to_excel args a σ = Some σ' →
  run_state σ' ≠ run_state σ → thread_of a = MainThread.
Proof.
  intros Hstep Hne. destruct a as [|i|]; [| |done]; exfalso; cbn in Hstep.
  - destruct (queue σ); [done|]. case_decide; [|done].
    injection Hstep as <-. done.
  - case_decide; [|done]. destruct (args !! i); [|done].
    injection Hstep as <-. done.
Qed.

(** C10, amended. No thread ever holds [zip_lock]; the globals and the
    archive are changed only by moves of the main thread, which records
    the results one after the other as it draws them from [ex.map], never
    by a worker; and in every state a schedule reaches, for tasks with
    pairwise distinct symbols, no symbol is in both lists, no symbol is
    twice in a list, and [len(success_list) + len(failed_list)] is at most
    the number of tasks submitted and, whenever the main thread is about
    to draw a result, the number of results it has drawn. *)
Theorem recording_is_confined_to_the_main_thread to_excel args σ :
  NoDup (task_symbol <$> args) →
  reachable to_excel args σ →
  zip_lock σ = None
  ∧ (∀ a σ', exec to_excel args a σ = Some σ' →
             run_state σ' ≠ run_state σ → thread_of a = MainThread)
  ∧ (∀ s, s ∈ success_list (run_state σ) → s ∉ failed_list (run_state σ))
  ∧ NoDup (success_list (run_state σ))
  ∧ NoDup (failed_list (run_state σ))
  ∧ length (success_list (run_state σ)) + length (failed_list (run_state σ))
    ≤ length args
  ∧ (coord σ = AtNext →
     length (success_list (run_state σ)) + length (failed_list (run_state σ))
     = next σ).
Proof.
  intros Hnd Hreach.
  destruct (reachable_lists _ _ _ Hreach) as (k & Hk & Hperm & Hnext).
  pose proof (reachable_inv _ _ _ Hreach) as (Hlock & _).
  assert (NoDup (success_list (run_state σ) ++ failed_list (run_state σ)))
    as Hnd'.
  { rewrite Hperm. eapply sublist_NoDup; [exact Hnd|apply sublist_take]. }
  apply NoDup_app in Hnd' as (? & ? & ?).
  assert (length (success_list (run_state σ))
          + length (failed_list (run_state σ)) = k) as Hlen.
  { rewrite <- length_app, Hperm, length_take, length_fmap. lia. }
  split_and!; try done.
  - intros a σ'. apply worker_leaves_the_globals.
  - lia.
  - intros Hc. rewrite Hlen. by apply Hnext.
Qed.

Lemma recording_is_confined_to_the_main_thread_witness :
  ∃ σ, execs excel_ok args_ABC
         [Take; Take; Take; Finish 2; Finish 0; Coordinate]
         (submitted args_ABC) = Some σ
       ∧ zip_lock σ = None
       ∧ length (success_list (run_state σ))
         + length (failed_list (run_state σ)) ≤ 3.
Proof.
  destruct (execs excel_ok args_ABC
              [Take; Take; Take; Finish 2; Finish 0; Coordinate]
              (submitted args_ABC)) as [σ|] eqn:Hrun;
    [|by vm_compute in Hrun].
  exists σ. split; [done|].
  destruct (recording_is_confined_to_the_main_thread excel_ok args_ABC σ)
    as (Hlock & _ & _ & _ & _ & Hlen & _).
  - compute_done.
  - by eexists.
  - split; [exact Hlock | exact Hlen].
Defined.

(** * Further properties *)

(** ** The retrying fetcher, for every behaviour of the data source *)

(** Either every attempt fails, or some attempt is the first not to. *)
Lemma first_success_or_all_failed (smart : SmartConnect) (p : params) :
  (∀ i, i < MAX_RETRIES → failed_reply (smart p i) = true)
  ∨ ∃ k rsp, k < MAX_RETRIES
             ∧ (∀ i, i < k → failed_reply (smart p i) = true)
             ∧ smart p k = Returns (Some rsp) ∧ status rsp = true.
Proof.
  assert (∀ i, failed_reply (smart p i) = true
               ∨ ∃ rsp, smart p i = Returns (Some rsp) ∧ status rsp = true)
    as Hcase.
  { intros i. destruct (smart p i) as [|[rsp|]]; cbn; auto.
    destruct (status rsp) eqn:Hs; cbn; eauto. }
  destruct (Hcase 0) as [H0|(rsp & ? & ?)].
  2:{ right. exists 0, rsp. split_and!; try done; [unfold MAX_RETRIES|]; lia. }
  destruct (Hcase 1) as [H1|(rsp & ? & ?)].
  2:{ right. exists 1, rsp. split_and!; try done; [unfold MAX_RETRIES; lia|].
      intros i Hi. by replace i with 0 by lia. }
  destruct (Hcase 2) as [H2|(rsp & ? & ?)].
  2:{ right. exists 2, rsp. split_and!; try done; [unfold MAX_RETRIES; lia|].
      intros [|[|i]] Hi; try done. lia. }
  left. intros [|[|[|i]]] Hi; try done. unfold MAX_RETRIES in Hi. lia.
Qed.

Lemma get_candles_first_success smart p k rsp :
  k < MAX_RETRIES →
  (∀ i, i < k → failed_reply (smart p i) = true) →
  smart p k = Returns (Some rsp) → status rsp = true →
  get_candles_with_retry smart p
  = (Some rsp,
     (seq 0 k ≫= λ i, [getCandleData p i; sleep ((i + 1) * 5)])
       ++ [getCandleData p k]).
Proof.
  intros Hk Hfail Hrep Hst. unfold get_candles_with_retry.
  replace (seq 0 MAX_RETRIES)
    with (seq 0 k ++ k :: seq (S k) (MAX_RETRIES - S k)).
  - apply retry_loop_first_success; try done.
    intros j Hj. apply Hfail. apply elem_of_seq in Hj. lia.
  - change (k :: seq (S k) (MAX_RETRIES - S k))
      with (seq k (S (MAX_RETRIES - S k))).
    change k with (0 + k) at 2. rewrite <- seq_app. f_equal. lia.
Qed.

Lemma delays_failed_attempts p s k :
  delays (seq s k ≫= λ i, [getCandleData p i; sleep ((i + 1) * 5)])
  = (λ i, (i + 1) * 5) <$> seq s k.
Proof.
  revert s. induction k as [|k IH]; intros s; [done|].
  cbn [seq mbind list_bind app]. unfold delays in *. cbn. by rewrite IH.
Qed.

(** X1. Whatever the data source does, [get_candles_with_retry] calls it at
    least once and at most [MAX_RETRIES] times, with indices 0, 1, ... in
    order.  Every call before the last one got a failed reply (an
    exception, a falsy value or a falsy status), so no call follows a reply
    flagged successful.  A reply it returns is the reply of its last call
    and is flagged successful; the trace is then each failed call followed
    by its sleep of 5, 10, ... seconds and the successful call as last
    event, with no sleep after it.  It returns [None] only when all
    [MAX_RETRIES] replies failed; the trace is then the three calls, each
    followed by its sleep of 5, 10, 15 seconds.  It never sleeps more than
    30 seconds in all. *)
Theorem get_candles_with_retry_bounds (smart : SmartConnect) (p : params) :
  1 ≤ attempts (get_candles_with_retry smart p).2 ≤ MAX_RETRIES
  ∧ calls (get_candles_with_retry smart p).2
    = seq 0 (attempts (get_candles_with_retry smart p).2)
  ∧ delays (get_candles_with_retry smart p).2 `prefix_of` [5; 10; 15]
  ∧ sum_list (delays (get_candles_with_retry smart p).2) ≤ 30
  ∧ (∀ rsp, (get_candles_with_retry smart p).1 = Some rsp →
            status rsp = true
            ∧ smart p (attempts (get_candles_with_retry smart p).2 - 1)
              = Returns (Some rsp)
            ∧ length (delays (get_candles_with_retry smart p).2)
              = attempts (get_candles_with_retry smart p).2 - 1)
  ∧ ((get_candles_with_retry smart p).1 = None →
     attempts (get_candles_with_retry smart p).2 = MAX_RETRIES)
  ∧ (∀ i, S i < attempts (get_candles_with_retry smart p).2 →
          failed_reply (smart p i) = true)
  ∧ (∀ rsp, (get_candles_with_retry smart p).1 = Some rsp →
            failed_reply
              (smart p (attempts (get_candles_with_retry smart p).2 - 1))
            = false
            ∧ (get_candles_with_retry smart p).2
              = (seq 0 (attempts (get_candles_with_retry smart p).2 - 1)
                   ≫= λ i, [getCandleData p i; sleep ((i + 1) * 5)])
                ++ [getCandleData p
                      (attempts (get_candles_with_retry smart p).2 - 1)])
  ∧ ((get_candles_with_retry smart p).1 = None →
     (∀ i, i < MAX_RETRIES → failed_reply (smart p i) = true)
     ∧ (get_candles_with_retry smart p).2
       = [getCandleData p 0; sleep 5; getCandleData p 1; sleep 10;
          getCandleData p 2; sleep 15]).
Proof.
  destruct (first_success_or_all_failed smart p)
    as [Hall|(k & rsp & Hk & Hfail & Hrep & Hst)].
  - unfold get_candles_with_retry. rewrite retry_loop_all_failed.
    2:{ intros i Hi. apply Hall. apply elem_of_seq in Hi. lia. }
    cbn. unfold attempts. cbn. split_and!; try done; try lia.
    intros i Hi. apply Hall. unfold MAX_RETRIES. lia.
  - rewrite (get_candles_first_success smart p k rsp) by done.
    cbn [fst snd]. unfold attempts. rewrite calls_retry_prefix, length_seq.
    assert (delays ((seq 0 k ≫= λ i, [getCandleData p i; sleep ((i + 1) * 5)])
                      ++ [getCandleData p k])
            = (λ i, (i + 1) * 5) <$> seq 0 k) as ->.
    { unfold delays. rewrite omap_app. cbn. rewrite app_nil_r.
      apply delays_failed_attempts. }
    replace (S k - 1) with k by lia.
    split_and!; try done; try lia.
    + unfold MAX_RETRIES in Hk.
      destruct k as [|[|[|k]]]; try lia; cbn;
        [by exists [5; 10; 15] | by exists [10; 15] | by exists [15]].
    + unfold MAX_RETRIES in Hk. destruct k as [|[|[|k]]]; cbn; lia.
    + intros rsp' [= <-]. split_and!; try done.
      by rewrite length_fmap, length_seq.
    + intros i Hi. apply Hfail. lia.
    + intros rsp' [= <-]. split; [|done].
      rewrite Hrep. cbn. by rewrite Hst.
Qed.

Lemma get_candles_with_retry_bounds_witness :
  attempts (get_candles_with_retry smart_third
              (candle_params row_A "2024-10-11 09:15" "2025-01-09 15:30")).2
  = 3
  ∧ failed_reply
      (smart_third (candle_params row_A "2024-10-11 09:15" "2025-01-09 15:30")
         1) = true
  ∧ (get_candles_with_retry smart_third
       (candle_params row_A "2024-10-11 09:15" "2025-01-09 15:30")).2
    = [getCandleData
         (candle_params row_A "2024-10-11 09:15" "2025-01-09 15:30") 0;
       sleep 5;
       getCandleData
         (candle_params row_A "2024-10-11 09:15" "2025-01-09 15:30") 1;
       sleep 10;
       getCandleData
         (candle_params row_A "2024-10-11 09:15" "2025-01-09 15:30") 2].
Proof.
  pose proof (get_candles_with_retry_bounds smart_third
    (candle_params row_A "2024-10-11 09:15" "2025-01-09 15:30"))
    as (_ & _ & _ & _ & _ & _ & Hbefore & Hsome & _).
  destruct (Hsome {| status := true; data := DataRows [candle] |})
    as (_ & Htr); [reflexivity|].
  split_and!.
  - reflexivity.
  - apply Hbefore. vm_compute. lia.
  - rewrite Htr. reflexivity.
Defined.

(** ** [download_symbol], for every behaviour of the data source *)

(** X2. When the first reply that is not a failure comes at attempt [k], is
    flagged successful and carries rows that fill the six columns, and the
    workbook is written, [download_symbol] returns [(symbol, xlsx, None)]
    with the workbook made from that reply; it has made [k + 1] calls, has
    slept 5, ..., 5k seconds after the failed ones, and makes no call after
    the successful one. *)
Theorem download_symbol_success to_excel smart r FROM TO k rsp row0 rows df xlsx :
  k < MAX_RETRIES →
  (∀ i, i < k → failed_reply (smart (candle_params r FROM TO) i) = true) →
  smart (candle_params r FROM TO) k = Returns (Some rsp) →
  status rsp = true →
  data rsp = DataRows (row0 :: rows) →
  DataFrame (row0 :: rows) candle_columns = Some df →
  to_excel df = Returned xlsx →
  (download_symbol to_excel (smart, r, FROM, TO)).1
    = Returned (TradingSymbol r, Some xlsx, None)
  ∧ calls (download_symbol to_excel (smart, r, FROM, TO)).2 = seq 0 (S k)
  ∧ delays (download_symbol to_excel (smart, r, FROM, TO)).2
    = (λ i, (i + 1) * 5) <$> seq 0 k
  ∧ last (download_symbol to_excel (smart, r, FROM, TO)).2
    = Some (getCandleData (candle_params r FROM TO) k).
Proof.
  intros Hk Hfail Hrep Hst Hdata Hdf Hx. unfold download_symbol.
  rewrite (get_candles_first_success smart _ k rsp) by done.
  rewrite Hdata, Hdf, Hx. cbn [fst snd]. split_and!; [done| | |].
  - apply calls_retry_prefix.
  - unfold delays. rewrite omap_app. cbn. rewrite app_nil_r.
    apply delays_failed_attempts.
  - by rewrite last_snoc.
Qed.

Lemma download_symbol_success_witness :
  (download_symbol excel_ok
     (smart_third, row_A, "2024-10-11 09:15", "2025-01-09 15:30")).1
    = Returned ("SENSEX2510980000CE", Some [Byte.x50; Byte.x4b], None)
  ∧ delays (download_symbol excel_ok
     (smart_third, row_A, "2024-10-11 09:15", "2025-01-09 15:30")).2 = [5; 10].
Proof.
  pose proof (download_symbol_success excel_ok smart_third row_A
    "2024-10-11 09:15" "2025-01-09 15:30" 2
    {| status := true; data := DataRows [candle] |} candle [] [candle]
    [Byte.x50; Byte.x4b]) as H.
  destruct H as (Hres & _ & Hdel & _).
  - unfold MAX_RETRIES. lia.
  - intros [|[|i]] Hi; [reflexivity | reflexivity | lia].
  - reflexivity.
  - reflexivity.
  - reflexivity.
  - reflexivity.
  - reflexivity.
  - split; [exact Hres | exact Hdel].
Defined.

(** What [download_symbol] does, by what the fetch gave. *)
Lemma download_symbol_cases to_excel smart r FROM TO :
  (download_symbol to_excel (smart, r, FROM, TO)).1
    = Returned (TradingSymbol r, None, Some "No data")
  ∨ ∃ k rsp row0 rows,
      k < MAX_RETRIES
      ∧ smart (candle_params r FROM TO) k = Returns (Some rsp)
      ∧ status rsp = true
      ∧ data rsp = DataRows (row0 :: rows)
      ∧ ((DataFrame (row0 :: rows) candle_columns = None
          ∧ (download_symbol to_excel (smart, r, FROM, TO)).1
            = Raised ValueError)
         ∨ ∃ df, DataFrame (row0 :: rows) candle_columns = Some df
                 ∧ ((∃ xlsx, to_excel df = Returned xlsx
                             ∧ (download_symbol to_excel (smart, r, FROM, TO)).1
                               = Returned (TradingSymbol r, Some xlsx, None))
                    ∨ ∃ e, to_excel df = Raised e
                           ∧ (download_symbol to_excel (smart, r, FROM, TO)).1
                             = Raised e)).
Proof.
  destruct (first_success_or_all_failed smart (candle_params r FROM TO))
    as [Hall|(k & rsp & Hk & Hfail & Hrep & Hst)].
  - left. by rewrite download_symbol_all_failed.
  - destruct (data rsp) as [|[|row0 rows]] eqn:Hdata.
    + left.
      assert (truthy_data (data rsp) = false) as Hd by by rewrite Hdata.
      exact (f_equal fst (download_symbol_no_data to_excel smart r FROM TO
                            k rsp Hk Hfail Hrep Hst Hd)).
    + left.
      assert (truthy_data (data rsp) = false) as Hd by by rewrite Hdata.
      exact (f_equal fst (download_symbol_no_data to_excel smart r FROM TO
                            k rsp Hk Hfail Hrep Hst Hd)).
    + right. exists k, rsp, row0, rows. split_and!; try done.
      unfold download_symbol.
      rewrite (get_candles_first_success smart _ k rsp) by done.
      rewrite Hdata.
      destruct (DataFrame (row0 :: rows) candle_columns) as [df|]; [|by left].
      right. exists df. split; [done|].
      destruct (to_excel df) as [xlsx|e]; [left|right]; eauto.
Qed.

Lemma download_symbol_returned to_excel smart r FROM TO symbol dat err :
  (download_symbol to_excel (smart, r, FROM, TO)).1
    = Returned (symbol, dat, err) →
  (dat = None ∧ err = Some "No data")
  ∨ (∃ xlsx df, dat = Some xlsx ∧ err = None ∧ to_excel df = Returned xlsx).
Proof.
  intros Hres.
  destruct (download_symbol_cases to_excel smart r FROM TO)
    as [H|(k & rsp & row0 & rows & _ & _ & _ & _ & H)].
  - rewrite H in Hres. injection Hres as <- <- <-. auto.
  - destruct H as [[_ H]|(df & _ & [(xlsx & Hx & H)|(e & _ & H)])];
      rewrite H in Hres; try done.
    injection Hres as <- <- <-. right. by exists xlsx, df.
Qed.

(** X3. A triple that [download_symbol] returns is well formed: it carries
    the symbol of its row, and either no data with the reason "No data", or
    a workbook with no reason. *)
Theorem download_symbol_outcome_shape to_excel smart r FROM TO symbol dat err :
  (download_symbol to_excel (smart, r, FROM, TO)).1
    = Returned (symbol, dat, err) →
  symbol = TradingSymbol r
  ∧ ((dat = None ∧ err = Some "No data")
     ∨ (∃ xlsx, dat = Some xlsx ∧ err = None)).
Proof.
  intros Hres.
  destruct (download_symbol_cases to_excel smart r FROM TO)
    as [H|(k & rsp & row0 & rows & _ & _ & _ & _ & H)].
  - rewrite H in Hres. injection Hres as <- <- <-. auto.
  - destruct H as [[_ H]|(df & _ & [(xlsx & _ & H)|(e & _ & H)])];
      rewrite H in Hres; try done.
    injection Hres as <- <- <-. eauto.
Qed.

Lemma download_symbol_outcome_shape_witness :
  "SENSEX2510980000CE" = TradingSymbol row_A
  ∧ ((@None bytes = None ∧ Some "No data" = Some "No data")
     ∨ (∃ xlsx : bytes, None = Some xlsx ∧ Some "No data" = None)).
Proof.
  apply (download_symbol_outcome_shape excel_ok smart_down row_A
    "2024-10-11 09:15" "2025-01-09 15:30"). reflexivity.
Defined.

(** X4. [download_symbol] raises only out of the conversion of a reply
    flagged successful that carries rows: [ValueError] when the rows do not
    fill the six columns, or whatever the workbook writer raised.  The
    fetch itself, whatever it does, never makes it raise. *)
Theorem download_symbol_raises_only_in_conversion to_excel smart r FROM TO e :
  (download_symbol to_excel (smart, r, FROM, TO)).1 = Raised e →
  ∃ k rsp rows,
    k < MAX_RETRIES
    ∧ smart (candle_params r FROM TO) k = Returns (Some rsp)
    ∧ status rsp = true
    ∧ data rsp = DataRows rows
    ∧ rows ≠ []
    ∧ ((content_width rows ≠ 6 ∧ e = ValueError)
       ∨ ∃ df, DataFrame rows candle_columns = Some df ∧ to_excel df = Raised e).
Proof.
  intros Hres.
  destruct (download_symbol_cases to_excel smart r FROM TO)
    as [H|(k & rsp & row0 & rows & Hk & Hrep & Hst & Hdata & H)].
  - by rewrite H in Hres.
  - exists k, rsp, (row0 :: rows). split_and!; try done.
    destruct H as [[Hdf H]|(df & Hdf & [(xlsx & _ & H)|(e' & Hx & H)])];
      rewrite H in Hres; try done.
    + injection Hres as <-. left. split; [|done].
      unfold DataFrame in Hdf. case_decide; [done|]. done.
    + injection Hres as <-. right. eauto.
Qed.

Lemma download_symbol_raises_only_in_conversion_witness :
  ∃ k rsp rows,
    k < MAX_RETRIES
    ∧ smart_short (candle_params row_A "2024-10-11 09:15" "2025-01-09 15:30") k
      = Returns (Some rsp)
    ∧ status rsp = true
    ∧ data rsp = DataRows rows
    ∧ rows ≠ []
    ∧ ((content_width rows ≠ 6 ∧ ValueError = ValueError)
       ∨ ∃ df, DataFrame rows candle_columns = Some df
               ∧ excel_ok df = Raised ValueError).
Proof.
  apply (download_symbol_raises_only_in_conversion excel_ok smart_short row_A
    "2024-10-11 09:15" "2025-01-09 15:30" ValueError). reflexivity.
Defined.

(** ** The result loop, however it ends *)

Lemma task_symbol_make_args smart rows FROM TO :
  task_symbol <$> make_args smart rows FROM TO = TradingSymbol <$> rows.
Proof. unfold make_args. rewrite <- list_fmap_compose. done. Qed.

(** What the loop leaves in the globals, whether it ran to its end or
    stopped at a call that raised: the body was run on the results of the
    first [k] tasks. *)
Lemma pipeline_loop_lists to_excel smart rows FROM TO :
  ∃ k os,
    k ≤ length rows
    ∧ take k (map_download to_excel (make_args smart rows FROM TO))
      = Returned <$> os
    ∧ symbol_of <$> os = take k (TradingSymbol <$> rows)
    ∧ success_list (pipeline_loop to_excel smart rows FROM TO).1
      = symbol_of <$> filter is_success os
    ∧ failed_list (pipeline_loop to_excel smart rows FROM TO).1
      = symbol_of <$> filter (λ o, ¬ is_success o) os
    ∧ failed_details (pipeline_loop to_excel smart rows FROM TO).1
      = (λ o, (symbol_of o, o.2)) <$> filter (λ o, ¬ is_success o) os
    ∧ zip_buf (pipeline_loop to_excel smart rows FROM TO).1
      = archive_entry <$> filter is_success os.
Proof.
  unfold pipeline_loop.
  set (rs := map_download to_excel (make_args smart rows FROM TO)).
  exists (length (consumed rs)), (consumed rs).
  pose proof (consumed_prefix rs) as Hpre.
  split_and!.
  - rewrite <- (length_fmap Returned), <- Hpre, length_take.
    unfold rs, map_download, make_args. rewrite !length_fmap. lia.
  - done.
  - rewrite <- task_symbol_make_args with (smart := smart) (FROM := FROM)
      (TO := TO).
    by apply (take_results_symbols to_excel).
  - rewrite result_loop_state.
    by destruct (record_fold_lists (consumed rs) initial_state) as (-> & _).
  - rewrite result_loop_state.
    by destruct (record_fold_lists (consumed rs) initial_state)
      as (_ & -> & _).
  - rewrite result_loop_state.
    by destruct (record_fold_lists (consumed rs) initial_state)
      as (_ & _ & -> & _).
  - rewrite result_loop_state.
    by destruct (record_fold_lists (consumed rs) initial_state)
      as (_ & _ & _ & ->).
Qed.

Lemma taken_result_is_a_download to_excel smart rows FROM TO k os o :
  take k (map_download to_excel (make_args smart rows FROM TO))
    = Returned <$> os →
  o ∈ os →
  ∃ r, r ∈ rows ∧ (download_symbol to_excel (smart, r, FROM, TO)).1 = Returned o.
Proof.
  intros Htake Ho.
  assert (Returned o ∈ map_download to_excel (make_args smart rows FROM TO))
    as Hin.
  { apply (subseteq_take k). rewrite Htake. by apply list_elem_of_fmap_2. }
  unfold map_download, make_args in Hin. rewrite <- list_fmap_compose in Hin.
  apply list_elem_of_fmap in Hin as (r & Hr & Hin). eauto.
Qed.

(** X5. However the loop ends, the symbols of [failed_details] are those of
    [failed_list], in the same order; when the workbook writer never
    yields an empty workbook, every reason recorded is "No data" and every
    archive entry has a non-empty content. *)
Theorem failed_details_mirror_failed_list to_excel smart rows FROM TO :
  (failed_details (pipeline_loop to_excel smart rows FROM TO).1).*1
    = failed_list (pipeline_loop to_excel smart rows FROM TO).1
  ∧ ((∀ df, to_excel df ≠ Returned []) →
     (∀ d, d ∈ failed_details (pipeline_loop to_excel smart rows FROM TO).1 →
           d.2 = Some "No data")
     ∧ (∀ entry, entry ∈ zip_buf (pipeline_loop to_excel smart rows FROM TO).1 →
                 entry.2 ≠ [])).
Proof.
  destruct (pipeline_loop_lists to_excel smart rows FROM TO)
    as (k & os & _ & Htake & _ & _ & Hf & Hd & Hz).
  split.
  - rewrite Hd, Hf, <- list_fmap_compose. done.
  - intros Hne. split.
    + intros d Hin. rewrite Hd in Hin.
      apply list_elem_of_fmap in Hin as (o & -> & Ho).
      apply list_elem_of_filter in Ho as [Hfail Ho].
      destruct (taken_result_is_a_download _ _ _ _ _ _ _ _ Htake Ho)
        as (r & _ & Hres).
      destruct o as [[symbol dat] err].
      destruct (download_symbol_returned _ _ _ _ _ _ _ _ Hres)
        as [[-> ->]|(xlsx & df & -> & -> & Hx)]; [done|].
      exfalso. unfold is_success in Hfail. cbn in Hfail.
      destruct xlsx as [|b xlsx]; [|by apply Hfail].
      by apply (Hne df).
    + intros entry Hin. rewrite Hz in Hin.
      apply list_elem_of_fmap in Hin as (o & -> & Ho).
      apply list_elem_of_filter in Ho as [Hs _].
      destruct o as [[symbol [[|b xlsx]|]] err]; done.
Qed.

Lemma failed_details_mirror_failed_list_witness :
  failed_details (pipeline_loop excel_ok smart_AB [row_A; row_B; row_C]
                    "2024-10-11 09:15" "2025-01-09 15:30").1
    = [("SENSEX2510980100CE", Some "No data")]
  ∧ (("SENSEX2510980100CE", Some "No data") : string * option string).2
    = Some "No data".
Proof.
  split; [reflexivity|].
  destruct (failed_details_mirror_failed_list excel_ok smart_AB
    [row_A; row_B; row_C] "2024-10-11 09:15" "2025-01-09 15:30") as (_ & H).
  destruct H as [H _]; [intros df; discriminate|].
  apply H. by left.
Defined.

(** X6. However the loop ends and whatever the order in which the calls
    finish, [success_list], [failed_list] and the archive keep the order of
    the tasks: each list is a subsequence of the task symbols as submitted,
    and the entry names are those of [success_list] in the same order. *)
Theorem recorded_in_task_order to_excel smart rows FROM TO :
  success_list (pipeline_loop to_excel smart rows FROM TO).1
    `sublist_of` (TradingSymbol <$> rows)
  ∧ failed_list (pipeline_loop to_excel smart rows FROM TO).1
    `sublist_of` (TradingSymbol <$> rows)
  ∧ (zip_buf (pipeline_loop to_excel smart rows FROM TO).1).*1
    = (λ s, s +:+ ".xlsx")
        <$> success_list (pipeline_loop to_excel smart rows FROM TO).1.
Proof.
  destruct (pipeline_loop_lists to_excel smart rows FROM TO)
    as (k & os & _ & _ & Hsym & -> & -> & _ & ->).
  split_and!.
  - trans (symbol_of <$> os); [apply fmap_sublist, sublist_filter|].
    rewrite Hsym. apply sublist_take.
  - trans (symbol_of <$> os); [apply fmap_sublist, sublist_filter|].
    rewrite Hsym. apply sublist_take.
  - by rewrite <- !list_fmap_compose.
Qed.

(** X7. Suppose that, for every task, each reply flagged successful that
    one of its [MAX_RETRIES] calls can get and that carries rows has six
    fields in its widest row, and that the workbook writer returns on the
    frame built from those rows (nothing is asked of the writer on any
    other frame).  Then no call of [download_symbol] raises: the loop runs
    to its end and every task is in one of the two lists, whatever else
    the data source does. *)
Theorem loop_completes_on_six_field_rows to_excel (smart : SmartConnect)
    rows FROM TO :
  (∀ r i rsp rws,
     r ∈ rows → i < MAX_RETRIES →
     smart (candle_params r FROM TO) i = Returns (Some rsp) →
     status rsp = true → data rsp = DataRows rws → rws ≠ [] →
     content_width rws = 6
     ∧ ∀ df, DataFrame rws candle_columns = Some df →
             ∃ xlsx, to_excel df = Returned xlsx) →
  (pipeline_loop to_excel smart rows FROM TO).2 = LoopDone
  ∧ length (success_list (pipeline_loop to_excel smart rows FROM TO).1)
    + length (failed_list (pipeline_loop to_excel smart rows FROM TO).1)
    = length rows.
Proof.
  intros Hok.
  destruct (pipeline_loop_completes to_excel smart rows FROM TO) as [st Hdone].
  { intros r Hr.
    destruct (download_symbol_cases to_excel smart r FROM TO)
      as [H|(k & rsp & row0 & rws & Hk & Hrep & Hst & Hdata & H)]; [eauto|].
    destruct (Hok r k rsp (row0 :: rws) Hr Hk Hrep Hst Hdata) as [Hw Hx];
      [done|].
    destruct H as [[Hdf _]|(df & Hdf & [(xlsx & _ & H)|(e & He & _)])].
    - exfalso. unfold DataFrame in Hdf. by rewrite decide_True in Hdf.
    - eauto.
    - destruct (Hx df Hdf) as [xlsx Hxl]. by rewrite Hxl in He. }
  rewrite Hdone. cbn [fst snd]. split; [done|].
  destruct (pipeline_loop_done _ _ _ _ _ _ Hdone) as (os & Hsym & -> & -> & _).
  rewrite <- length_app, <- fmap_app.
  rewrite (filter_app_complement (λ o, is_success o) os).
  by rewrite Hsym, length_fmap.
Qed.

Lemma loop_completes_on_six_field_rows_witness :
  (pipeline_loop excel_ok smart_AB [row_A; row_B; row_C]
     "2024-10-11 09:15" "2025-01-09 15:30").2 = LoopDone
  ∧ length (success_list
              (pipeline_loop excel_ok smart_AB [row_A; row_B; row_C]
                 "2024-10-11 09:15" "2025-01-09 15:30").1)
    + length (failed_list
                (pipeline_loop excel_ok smart_AB [row_A; row_B; row_C]
                   "2024-10-11 09:15" "2025-01-09 15:30").1)
    = 3.
Proof.
  apply (loop_completes_on_six_field_rows excel_ok smart_AB
    [row_A; row_B; row_C] "2024-10-11 09:15" "2025-01-09 15:30").
  intros r i rsp rws Hr Hi Hrep Hst Hdata Hne. split.
  - repeat (apply elem_of_cons in Hr as [->|Hr]);
      [| | |by apply elem_of_nil in Hr];
      cbn in Hrep; try done;
      injection Hrep as <-; cbn in Hdata; injection Hdata as <-; done.
  - intros df _. by exists [Byte.x50; Byte.x4b].
Defined.

Lemma downloads_until_raise to_excel smart FROM TO rows k r e :
  rows !! k = Some r →
  (download_symbol to_excel (smart, r, FROM, TO)).1 = Raised e →
  (∀ j r', j < k → rows !! j = Some r' →
     ∃ o, (download_symbol to_excel (smart, r', FROM, TO)).1 = Returned o) →
  ∃ os rest,
    map_download to_excel (make_args smart rows FROM TO)
      = (Returned <$> os) ++ Raised e :: rest
    ∧ symbol_of <$> os = take k (TradingSymbol <$> rows).
Proof.
  revert rows. induction k as [|k IH]; intros [|r0 rows] Hk Hraise Hret;
    try done.
  - injection Hk as ->.
    exists [], (map_download to_excel (make_args smart rows FROM TO)).
    change (map_download to_excel (make_args smart (r :: rows) FROM TO))
      with ((download_symbol to_excel (smart, r, FROM, TO)).1
              :: map_download to_excel (make_args smart rows FROM TO)).
    by rewrite Hraise.
  - destruct (Hret 0 r0) as [o Ho]; [lia|done|].
    destruct (IH rows) as (os & rest & Hmap & Hsym); [done|done| |].
    { intros j r' Hj Hr'. apply (Hret (S j) r'); [lia|done]. }
    exists (o :: os), rest.
    change (map_download to_excel (make_args smart (r0 :: rows) FROM TO))
      with ((download_symbol to_excel (smart, r0, FROM, TO)).1
              :: map_download to_excel (make_args smart rows FROM TO)).
    rewrite Ho, Hmap. split; [done|].
    rewrite !fmap_cons. cbn [take]. f_equal; [|done].
    by eapply download_symbol_symbol.
Qed.

(** X8. When the call for the task of index [k] is the first to raise, the
    loop ends with that exception: the tasks before it are recorded, each
    in one list, no later task is, nothing is uploaded, and the process
    ends with code 1 for an [Exception]. *)
Theorem loop_stops_at_first_raise to_excel (smart : SmartConnect) rows FROM TO k r e :
  rows !! k = Some r →
  (download_symbol to_excel (smart, r, FROM, TO)).1 = Raised e →
  (∀ j r', j < k → rows !! j = Some r' →
     ∃ o, (download_symbol to_excel (smart, r', FROM, TO)).1 = Returned o) →
  (pipeline_loop to_excel smart rows FROM TO).2 = LoopRaised e
  ∧ success_list (pipeline_loop to_excel smart rows FROM TO).1
      ++ failed_list (pipeline_loop to_excel smart rows FROM TO).1
    ≡ₚ take k (TradingSymbol <$> rows)
  ∧ ∀ ddmmyy env fs,
      upload_calls (main to_excel smart rows FROM TO ddmmyy env fs) = []
      ∧ files (main to_excel smart rows FROM TO ddmmyy env fs) = fs
      ∧ exit_status (main to_excel smart rows FROM TO ddmmyy env fs)
        = (if is_Exception e then Exit 1 else Uncaught e).
Proof.
  intros Hk Hraise Hret.
  destruct (downloads_until_raise _ _ _ _ _ _ _ _ Hk Hraise Hret)
    as (os & rest & Hmap & Hsym).
  assert (pipeline_loop to_excel smart rows FROM TO
          = (recorded os, LoopRaised e)) as Hloop.
  { unfold pipeline_loop. rewrite Hmap. apply result_loop_raised. }
  split_and!.
  - by rewrite Hloop.
  - rewrite Hloop. cbn [fst]. by rewrite recorded_symbols, Hsym.
  - intros ddmmyy env fs. unfold main. rewrite Hloop. done.
Qed.

Lemma loop_stops_at_first_raise_witness :
  (pipeline_loop excel_ok smart_mixed [row_B; row_A; row_C]
     "2024-10-11 09:15" "2025-01-09 15:30").2 = LoopRaised ValueError.
Proof.
  apply (loop_stops_at_first_raise excel_ok smart_mixed [row_B; row_A; row_C]
    "2024-10-11 09:15" "2025-01-09 15:30" 1 row_A ValueError).
  - reflexivity.
  - reflexivity.
  - intros [|j] r' Hj Hr'; [|lia]. injection Hr' as <-.
    eexists. reflexivity.
Defined.

(** ** The upload, for every behaviour of the endpoint *)

(** What [session.post] comes to when the method is not retryable, as
    [POST] is under the default [allowed_methods]: refused connections are
    retried while the count lasts, and the first other event ends the
    attempts. *)
Lemma urlopen_not_retryable fuel method r endpoint k0 :
  urllib3.is_method_retryable r method = false →
  urllib3.total r < fuel →
  (∃ j, j ≤ urllib3.total r
        ∧ (∀ i, i < j → endpoint (k0 + i) = ConnectFailed)
        ∧ upload_attempts (urlopen fuel method r endpoint k0).2 = S j
        ∧ ((∃ code ra, endpoint (k0 + j) = HttpStatus code ra
                       ∧ (urlopen fuel method r endpoint k0).1 = Returned code)
           ∨ (endpoint (k0 + j) = ReadFailed
              ∧ (urlopen fuel method r endpoint k0).1 = Raised ConnectionError)
           ∨ (endpoint (k0 + j) = Interrupted
              ∧ (urlopen fuel method r endpoint k0).1
                = Raised KeyboardInterrupt)))
  ∨ ((∀ i, i ≤ urllib3.total r → endpoint (k0 + i) = ConnectFailed)
     ∧ upload_attempts (urlopen fuel method r endpoint k0).2
       = S (urllib3.total r)
     ∧ (urlopen fuel method r endpoint k0).1 = Raised ConnectionError).
Proof.
  revert r k0. induction fuel as [|fuel IH]; intros r k0 Hm Hfuel; [lia|].
  cbn [urlopen].
  destruct (endpoint k0) as [| |code ra|] eqn:Hk0.
  - destruct (urllib3.increment r) as [r'|] eqn:Hinc.
    + destruct (increment_Some _ _ Hinc) as (Ht & _ & _ & _ & Ha).
      assert (urllib3.is_method_retryable r' method = false) as Hm'
        by (unfold urllib3.is_method_retryable in *; by rewrite Ha).
      specialize (IH r' (S k0) Hm' ltac:(lia)).
      destruct (urlopen fuel method r' endpoint (S k0)) as [res tr].
      cbn [fst snd] in *. unfold upload_attempts in *. cbn [omap list_omap].
      destruct IH as [(j & Hj & Hpre & Hatt & Hend)|(Hall & Hatt & Hres)].
      * left. exists (S j). split_and!.
        -- lia.
        -- intros [|i] Hi; [by rewrite Nat.add_0_r|].
           replace (k0 + S i) with (S k0 + i) by lia. apply Hpre. lia.
        -- cbn. by rewrite Hatt.
        -- by replace (k0 + S j) with (S k0 + j) by lia.
      * right. split_and!.
        -- intros [|i] Hi; [by rewrite Nat.add_0_r|].
           replace (k0 + S i) with (S k0 + i) by lia. apply Hall. lia.
        -- cbn. rewrite Hatt. lia.
        -- done.
    + right. unfold urllib3.increment in Hinc.
      destruct (urllib3.total r) eqn:Ht; [|done].
      split_and!; [|done|done].
      intros i Hi. replace i with 0 by lia. by rewrite Nat.add_0_r.
  - rewrite Hm. left. exists 0. rewrite Nat.add_0_r.
    split_and!; [lia | intros; lia | done | auto].
  - assert (urllib3.is_retry r method code ra = false) as ->
      by (unfold urllib3.is_retry; by rewrite Hm).
    left. exists 0. rewrite Nat.add_0_r.
    split_and!; [lia | intros; lia | done | eauto].
  - left. exists 0. rewrite Nat.add_0_r.
    split_and!; [lia | intros; lia | done | auto].
Qed.

Lemma send_zip_cases env fs zip_bytes name :
  tmp_create env = true → tmp_write env = true → tmp_open env = true →
  (send_zip_to_telegram env fs zip_bytes name).1.2
    = (fs ∪ {[tmp_name env]}) ∖ {[tmp_name env]}
  ∧ ((∃ j, j ≤ 5
          ∧ (∀ i, i < j → endpoint env i = ConnectFailed)
          ∧ upload_attempts (send_zip_to_telegram env fs zip_bytes name).2 = S j
          ∧ ((∃ code ra,
                endpoint env j = HttpStatus code ra
                ∧ (send_zip_to_telegram env fs zip_bytes name).1.1
                  = Returned (negb ((400 <=? code) && (code <? 600))))
             ∨ (endpoint env j = ReadFailed
                ∧ (send_zip_to_telegram env fs zip_bytes name).1.1
                  = Returned false)
             ∨ (endpoint env j = Interrupted
                ∧ (send_zip_to_telegram env fs zip_bytes name).1.1
                  = Raised KeyboardInterrupt)))
     ∨ ((∀ i, i ≤ 5 → endpoint env i = ConnectFailed)
        ∧ upload_attempts (send_zip_to_telegram env fs zip_bytes name).2 = 6
        ∧ (send_zip_to_telegram env fs zip_bytes name).1.1 = Returned false)).
Proof.
  intros Hc Hw Ho. unfold send_zip_to_telegram. rewrite Hc, Hw, Ho.
  cbn [negb]. unfold session_post.
  pose proof (urlopen_not_retryable 6 "POST" retries (endpoint env) 0
                eq_refl ltac:(cbn; lia)) as H.
  change (S (urllib3.total retries)) with 6.
  destruct (urlopen 6 "POST" retries (endpoint env) 0) as [res tr].
  cbn [fst snd Nat.add] in *. change (urllib3.total retries) with 5 in H.
  destruct H as [(j & Hj & Hpre & Hatt & Hend)|(Hall & Hatt & ->)].
  - destruct Hend as [(code & ra & Hresp & ->)|[[Hresp ->]|[Hresp ->]]].
    + unfold raise_for_status.
      destruct ((400 <=? code) && (code <? 600)) eqn:Hcode;
        cbn [fst snd except_Exception is_Exception];
        (split; [done|]); left; exists j; split_and!; try done;
        left; exists code, ra; by rewrite Hcode.
    + cbn [fst snd except_Exception is_Exception].
      split; [done|]. left. exists j. split_and!; try done. auto.
    + cbn [fst snd except_Exception is_Exception].
      split; [done|]. left. exists j. split_and!; try done. auto.
  - cbn [fst snd except_Exception is_Exception]. split; [done|]. right. done.
Qed.

Lemma bind_seq_S {A} (f : nat → list A) a n :
  seq (S a) n ≫= f = seq a n ≫= λ j, f (S j).
Proof.
  revert a. induction n as [|n IH]; intros a; [done|].
  cbn [seq]. rewrite !bind_cons. by rewrite IH.
Qed.

(** The shape of the trace of [session.post]: the first request, then for
    each retry the sleep before it and its request. *)
Lemma urlopen_trace_shape fuel method r endpoint k :
  urllib3.backoff_factor r = 2 → urllib3.backoff_max r = 120 →
  urllib3.total r < fuel →
  (urlopen fuel method r endpoint k).2
  = send_request k
      :: (seq 1 (upload_attempts (urlopen fuel method r endpoint k).2 - 1)
            ≫= λ j, [backoff (backoff_before_retry (urllib3.history r + j));
                     send_request (k + j)]).
Proof.
  revert r k. induction fuel as [|fuel IH]; intros r k Hf Hm Hfuel; [lia|].
  cbn [urlopen].
  assert (∀ e,
    (match urllib3.increment r with
     | None => (Raised e, [send_request k])
     | Some r' =>
       let '(res, tr) := urlopen fuel method r' endpoint (S k) in
       (res, send_request k :: backoff (urllib3.get_backoff_time r') :: tr)
     end).2
    = send_request k
        :: (seq 1 (upload_attempts
                     (match urllib3.increment r with
                      | None => (Raised e, [send_request k])
                      | Some r' =>
                        let '(res, tr) :=
                          urlopen fuel method r' endpoint (S k) in
                        (res, send_request k
                                :: backoff (urllib3.get_backoff_time r') :: tr)
                      end).2 - 1)
              ≫= λ j, [backoff (backoff_before_retry (urllib3.history r + j));
                       send_request (k + j)])) as Hagain.
  { intros e. destruct (urllib3.increment r) as [r'|] eqn:Hinc; [|done].
    destruct (increment_Some _ _ Hinc) as (Ht & Hh & Hf' & Hm' & _).
    specialize (IH r' (S k)). rewrite Hf', Hm', Hh in IH.
    specialize (IH Hf Hm ltac:(lia)).
    assert (urllib3.get_backoff_time r'
            = backoff_before_retry (urllib3.history r + 1)) as ->.
    { unfold urllib3.get_backoff_time, backoff_before_retry.
      rewrite Hh, Hf', Hm', Hf, Hm. by replace (urllib3.history r + 1)
        with (S (urllib3.history r)) by lia. }
    destruct (urlopen fuel method r' endpoint (S k)) as [res tr].
    cbn [snd] in *.
    assert (upload_attempts
              (send_request k
                 :: backoff (backoff_before_retry (urllib3.history r + 1)) :: tr)
            = S (upload_attempts tr)) as -> by done.
    assert (1 ≤ upload_attempts tr) as Hone.
    { rewrite IH. unfold upload_attempts. cbn. lia. }
    replace (S (upload_attempts tr) - 1)
      with (S (upload_attempts tr - 1)) by lia.
    cbn [seq]. rewrite bind_cons, bind_seq_S. cbn [app].
    replace (k + 1) with (S k) by lia.
    do 2 f_equal. etrans; [exact IH|]. f_equal.
    apply list_bind_ext; [|done].
    intros j. by replace (S (urllib3.history r) + j)
      with (urllib3.history r + S j) by lia;
      replace (S k + j) with (k + S j) by lia. }
  destruct (endpoint k) as [| |code ra|]; try apply Hagain; try done.
  - destruct (urllib3.is_method_retryable r method); [apply Hagain|done].
  - destruct (urllib3.is_retry r method code ra); [apply Hagain|done].
Qed.

(** C7, amended. Whatever the endpoint does, the upload makes at most six
    attempts (one, then at most five retries).  Its trace is the first
    request followed, for each retry, by the sleep before it and its
    request: the delays slept are exactly the first ones of 0, 4, 8, 16,
    32 seconds, one per retry, that is [2 * 2 ^ (n - 1)] before the [n]-th
    retry from the second on.  Against an endpoint that refuses every
    connection all six attempts are made and all five delays slept.  After
    a response with a client-side status (4xx other than 429) no further
    attempt is made (such a status is not in [status_forcelist]; the
    statement is silent on the statuses that are). *)
Theorem upload_retry_policy env fs zip_bytes name :
  upload_attempts (send_zip_to_telegram env fs zip_bytes name).2 ≤ 6
  ∧ upload_delays (send_zip_to_telegram env fs zip_bytes name).2
    `prefix_of` [0; 2 * 2 ^ 1; 2 * 2 ^ 2; 2 * 2 ^ 3; 2 * 2 ^ 4]
  ∧ (∀ k code ra,
       endpoint env k = HttpStatus code ra →
       400 ≤ code < 500 → code ≠ 429 →
       send_request (S k) ∉ (send_zip_to_telegram env fs zip_bytes name).2)
  ∧ ((send_zip_to_telegram env fs zip_bytes name).2 = []
     ∨ (send_zip_to_telegram env fs zip_bytes name).2
       = send_request 0
           :: (seq 1 (upload_attempts
                        (send_zip_to_telegram env fs zip_bytes name).2 - 1)
                 ≫= λ n, [backoff (backoff_before_retry n); send_request n]))
  ∧ upload_delays (send_zip_to_telegram env fs zip_bytes name).2
    = take (upload_attempts (send_zip_to_telegram env fs zip_bytes name).2 - 1)
        [0; 2 * 2 ^ 1; 2 * 2 ^ 2; 2 * 2 ^ 3; 2 * 2 ^ 4]
  ∧ (tmp_create env = true → tmp_write env = true → tmp_open env = true →
     (∀ i, i ≤ 5 → endpoint env i = ConnectFailed) →
     upload_attempts (send_zip_to_telegram env fs zip_bytes name).2 = 6
     ∧ upload_delays (send_zip_to_telegram env fs zip_bytes name).2
       = [0; 4; 8; 16; 32]).
Proof.
  assert ((send_zip_to_telegram env fs zip_bytes name).2 = []
     ∨ (send_zip_to_telegram env fs zip_bytes name).2
       = send_request 0
           :: (seq 1 (upload_attempts
                        (send_zip_to_telegram env fs zip_bytes name).2 - 1)
                 ≫= λ n, [backoff (backoff_before_retry n); send_request n]))
    as Hshape.
  { destruct (send_zip_trace env fs zip_bytes name) as [->|Htr]; [by left|].
    right. rewrite Htr. unfold session_post.
    apply (urlopen_trace_shape 6 "POST" retries (endpoint env) 0);
      [reflexivity | reflexivity | cbn; lia]. }
  assert (upload_attempts (send_zip_to_telegram env fs zip_bytes name).2 ≤ 6)
    as Hle.
  { destruct (send_zip_trace env fs zip_bytes name) as [-> | ->].
    - cbn. lia.
    - apply (urlopen_attempts_le 6). }
  assert (upload_delays (send_zip_to_telegram env fs zip_bytes name).2
    = take (upload_attempts (send_zip_to_telegram env fs zip_bytes name).2 - 1)
        [0; 2 * 2 ^ 1; 2 * 2 ^ 2; 2 * 2 ^ 3; 2 * 2 ^ 4]) as Hdelays.
  { destruct Hshape as [->|Hs]; [done|].
    rewrite Hs at 1.
    destruct (upload_attempts (send_zip_to_telegram env fs zip_bytes name).2)
      as [|[|[|[|[|[|[|n]]]]]]]; try reflexivity. lia. }
  split_and!; try done.
  - destruct (send_zip_trace env fs zip_bytes name) as [-> | ->].
    + apply prefix_nil.
    + apply (urlopen_delays 6 "POST" retries (endpoint env) 0); reflexivity.
  - destruct (send_zip_trace env fs zip_bytes name) as [-> | ->].
    + intros. apply not_elem_of_nil.
    + intros k code ra Hresp _ _.
      apply (urlopen_response_is_final _ _ _ _ 0 k code ra);
        [reflexivity | lia | done].
  - intros Hc Hw Ho Hall.
    destruct (send_zip_cases env fs zip_bytes name Hc Hw Ho) as (_ & Hcases).
    destruct Hcases as [(j & Hj & _ & _ & Hend)|(_ & Hatt & _)].
    + exfalso. rewrite (Hall j Hj) in Hend.
      by destruct Hend as [(? & ? & ? & _)|[[? _]|[? _]]].
    + split; [done|]. by rewrite Hdelays, Hatt.
Qed.

Lemma upload_retry_policy_witness :
  upload_attempts
    (send_zip_to_telegram (env_of true true (λ _, HttpStatus 403 false)) ∅ []
       "SENSEX_expiry_090125_1min.zip").2 ≤ 6
  ∧ (send_request 1
     ∉ (send_zip_to_telegram (env_of true true (λ _, HttpStatus 403 false)) ∅ []
          "SENSEX_expiry_090125_1min.zip").2)
  ∧ upload_delays
      (send_zip_to_telegram (env_of true true endpoint_down) ∅ []
         "SENSEX_expiry_090125_1min.zip").2 = [0; 4; 8; 16; 32].
Proof.
  pose proof (upload_retry_policy (env_of true true (λ _, HttpStatus 403 false))
    ∅ [] "SENSEX_expiry_090125_1min.zip") as (Hle & _ & Hfinal & _).
  pose proof (upload_retry_policy (env_of true true endpoint_down)
    ∅ [] "SENSEX_expiry_090125_1min.zip") as (_ & _ & _ & _ & _ & Hdown).
  split_and!; [exact Hle| |].
  - apply (Hfinal 0 403 false); [reflexivity | lia | lia].
  - apply Hdown; reflexivity.
Defined.

(** X9. With the temporary file in place, [send_zip_to_telegram] returns
    [True] exactly when, after at most five refused connections, the
    endpoint answers with a status outside 400-599.  The first response
    ends the attempts whatever its status: after [j] refused connections
    and a response, [j + 1] requests were sent and the result is [False]
    for a status in 400-599 (429, 500, 502 and 503 included, [POST] not
    being a method the retry policy retries on a status) and [True]
    otherwise. *)
Theorem upload_delivered_iff env fs zip_bytes name :
  tmp_create env = true → tmp_write env = true → tmp_open env = true →
  ((send_zip_to_telegram env fs zip_bytes name).1.1 = Returned true
   ↔ ∃ j code ra,
       j ≤ 5 ∧ (∀ i, i < j → endpoint env i = ConnectFailed)
       ∧ endpoint env j = HttpStatus code ra
       ∧ ¬ (400 ≤ code < 600))
  ∧ (∀ j code ra,
       j ≤ 5 → (∀ i, i < j → endpoint env i = ConnectFailed) →
       endpoint env j = HttpStatus code ra →
       upload_attempts (send_zip_to_telegram env fs zip_bytes name).2 = S j
       ∧ (send_zip_to_telegram env fs zip_bytes name).1.1
         = Returned (negb ((400 <=? code) && (code <? 600)))).
Proof.
  intros Hc Hw Ho.
  destruct (send_zip_cases env fs zip_bytes name Hc Hw Ho) as (_ & Hcases).
  assert (∀ j j', (∀ i, i < j → endpoint env i = ConnectFailed) →
                  (∀ i, i < j' → endpoint env i = ConnectFailed) →
                  endpoint env j ≠ ConnectFailed →
                  endpoint env j' ≠ ConnectFailed → j = j') as Huniq.
  { intros j j' Hpre Hpre' Hj Hj'.
    destruct (decide (j < j')); [by exfalso; apply Hj, Hpre'|].
    destruct (decide (j' < j)); [by exfalso; apply Hj', Hpre|]. lia. }
  assert (∀ j code ra,
       j ≤ 5 → (∀ i, i < j → endpoint env i = ConnectFailed) →
       endpoint env j = HttpStatus code ra →
       upload_attempts (send_zip_to_telegram env fs zip_bytes name).2 = S j
       ∧ (send_zip_to_telegram env fs zip_bytes name).1.1
         = Returned (negb ((400 <=? code) && (code <? 600)))) as Hfwd.
  { intros j code ra Hj Hpre Hresp.
    destruct Hcases as [(j' & Hj' & Hpre' & Hatt & Hend)|(Hall & _)].
    - assert (j' = j) as ->.
      { apply Huniq; try done; [|by rewrite Hresp].
        destruct Hend as [(? & ? & -> & _)|[[-> _]|[-> _]]]; done. }
      split; [done|].
      destruct Hend as [(code' & ra' & Hresp' & Hres)|[[H _]|[H _]]];
        rewrite Hresp in *; try done.
      by injection Hresp' as <- <-.
    - by rewrite Hall in Hresp. }
  split; [|exact Hfwd]. split.
  - intros Htrue.
    destruct Hcases as [(j & Hj & Hpre & Hatt & Hend)|(_ & _ & Hres)];
      [|by rewrite Hres in Htrue].
    destruct Hend as [(code & ra & Hresp & Hres)|[[_ Hres]|[_ Hres]]];
      rewrite Hres in Htrue; try done.
    exists j, code, ra. split_and!; try done.
    assert (negb ((400 <=? code) && (code <? 600)) = true) as Hn
      by congruence.
    apply negb_true_iff, andb_false_iff in Hn as [Hn|Hn];
      [apply Nat.leb_gt in Hn | apply Nat.ltb_ge in Hn]; lia.
  - intros (j & code & ra & Hj & Hpre & Hresp & Hcode).
    destruct (Hfwd j code ra Hj Hpre Hresp) as [_ ->]. f_equal.
    apply negb_true_iff, andb_false_iff.
    destruct (decide (code < 400));
      [left; by apply Nat.leb_gt | right; apply Nat.ltb_ge; lia].
Qed.

Lemma upload_delivered_iff_witness :
  upload_attempts
    (send_zip_to_telegram (env_of true true endpoint_busy) ∅ []
       "SENSEX_expiry_090125_1min.zip").2 = 1
  ∧ (send_zip_to_telegram (env_of true true endpoint_busy) ∅ []
       "SENSEX_expiry_090125_1min.zip").1.1 = Returned false.
Proof.
  destruct (upload_delivered_iff (env_of true true endpoint_busy) ∅ []
    "SENSEX_expiry_090125_1min.zip") as (_ & H); try reflexivity.
  apply (H 0 429 false); [lia | intros i Hi; lia | reflexivity].
Defined.

(** X10. [send_zip_to_telegram] touches no file but its temporary one, and
    when the name of that file is fresh and either creating it fails or
    writing it succeeds, the files after the call are the files before
    it. *)
Theorem upload_leaves_other_files env fs zip_bytes name :
  (∀ path, path ≠ tmp_name env →
           path ∈ (send_zip_to_telegram env fs zip_bytes name).1.2 ↔ path ∈ fs)
  ∧ (tmp_name env ∉ fs →
     tmp_create env = false ∨ tmp_write env = true →
     (send_zip_to_telegram env fs zip_bytes name).1.2 = fs).
Proof.
  unfold send_zip_to_telegram.
  destruct (tmp_create env); cbn [negb].
  - destruct (tmp_write env); cbn [negb].
    + destruct (if negb (tmp_open env) then _ else _) as [body tr].
      cbn [fst snd]. split.
      * intros path Hne.
        rewrite elem_of_difference, elem_of_union, elem_of_singleton.
        tauto.
      * intros Hfresh _. apply set_eq. intros path.
        rewrite elem_of_difference, elem_of_union, elem_of_singleton.
        split; [tauto|]. intros Hin. split; [by left|].
        by intros ->.
    + cbn [fst snd]. split; [|by intros _ [|]].
      intros path Hne. rewrite elem_of_union, elem_of_singleton.
      tauto.
  - cbn [fst snd]. split; [done|]. done.
Qed.

Lemma upload_leaves_other_files_witness :
  (send_zip_to_telegram (env_of true true endpoint_down) {[ "/tmp/keep" ]} []
     "SENSEX_expiry_090125_1min.zip").1.2 = {[ "/tmp/keep" ]}.
Proof.
  apply (upload_leaves_other_files (env_of true true endpoint_down)
    {[ "/tmp/keep" ]} [] "SENSEX_expiry_090125_1min.zip").
  - intros H%elem_of_singleton. discriminate.
  - by right.
Defined.

Lemma send_zip_returns env fs zip_bytes name :
  tmp_create env = true → tmp_write env = true →
  (∀ k, endpoint env k ≠ Interrupted) →
  ∃ delivered, (send_zip_to_telegram env fs zip_bytes name).1.1
               = Returned delivered.
Proof.
  intros Hc Hw Hint. destruct (tmp_open env) eqn:Ho.
  - destruct (send_zip_cases env fs zip_bytes name Hc Hw Ho) as (_ & Hcases).
    destruct Hcases as [(j & _ & _ & _ & Hend)|(_ & _ & Hres)]; [|eauto].
    destruct Hend as [(code & ra & _ & Hres)|[[_ Hres]|[Hresp _]]]; eauto.
    by destruct (Hint j).
  - unfold send_zip_to_telegram. rewrite Hc, Hw, Ho. cbn. eauto.
Qed.

(** ** The exit code *)

(** X11. A run whose loop ran to its end exits with code 0 whether or not
    anything was downloaded and whether or not the archive was delivered:
    with the temporary file written and no interrupt, [main] ends in
    [sys.exit(0)] also when every task failed and also when
    [send_zip_to_telegram] returned [False]. *)
Theorem completed_run_exits_zero to_excel smart rows FROM TO ddmmyy env fs :
  (pipeline_loop to_excel smart rows FROM TO).2 = LoopDone →
  tmp_create env = true → tmp_write env = true →
  (∀ k, endpoint env k ≠ Interrupted) →
  exit_status (main to_excel smart rows FROM TO ddmmyy env fs) = Exit 0.
Proof.
  intros Hdone Hc Hw Hint. unfold main.
  destruct (pipeline_loop to_excel smart rows FROM TO) as [st ex].
  cbn in Hdone. subst ex.
  destruct (success_list st) as [|s ss]; [done|].
  destruct (send_zip_returns env fs (zip_buf st)
              ("SENSEX_expiry_" +:+ ddmmyy +:+ "_1min.zip") Hc Hw Hint)
    as [delivered Hres].
  destruct (send_zip_to_telegram env fs (zip_buf st) _) as [[r fs'] tr].
  cbn in Hres. subst r. done.
Qed.

Lemma completed_run_exits_zero_witness :
  exit_status (main excel_ok smart_AB [row_A; row_B; row_C]
    "2024-10-11 09:15" "2025-01-09 15:30" "090125"
    (env_of true true endpoint_busy) ∅) = Exit 0
  ∧ exit_status (main excel_ok smart_down [row_A; row_B; row_C]
    "2024-10-11 09:15" "2025-01-09 15:30" "090125"
    (env_of true true endpoint_busy) ∅) = Exit 0.
Proof.
  split.
  - apply (completed_run_exits_zero excel_ok smart_AB [row_A; row_B; row_C]
      "2024-10-11 09:15" "2025-01-09 15:30" "090125"
      (env_of true true endpoint_busy) ∅); try reflexivity.
    intros k. discriminate.
  - apply (completed_run_exits_zero excel_ok smart_down [row_A; row_B; row_C]
      "2024-10-11 09:15" "2025-01-09 15:30" "090125"
      (env_of true true endpoint_busy) ∅); try reflexivity.
    intros k. discriminate.
Defined.

(** ** The last traded price *)

(** X12. [get_SENSEX_ltp] returns the fifth field of the last row of a
    reply flagged successful, whatever the rows before it, and [None] when
    that row has fewer than five fields; a value other than [None] is
    returned only for such a reply with such a last row. *)
Theorem get_SENSEX_ltp_value (smart : SmartConnect) fromdate todate :
  (∀ resp rows r,
     smart {| exchange := "BSE"; symboltoken := SENSEX_TOKEN;
              interval := "ONE_MINUTE"; fromdate := fromdate;
              todate := todate |} 0 = Returns (Some resp) →
     status resp = true → data resp = DataRows (rows ++ [r]) →
     get_SENSEX_ltp smart fromdate todate = default CNull (r !! 4)
     ∧ (length r < 5 → get_SENSEX_ltp smart fromdate todate = CNull))
  ∧ (get_SENSEX_ltp smart fromdate todate ≠ CNull →
     ∃ resp rows r,
       smart {| exchange := "BSE"; symboltoken := SENSEX_TOKEN;
                interval := "ONE_MINUTE"; fromdate := fromdate;
                todate := todate |} 0 = Returns (Some resp)
       ∧ status resp = true ∧ data resp = DataRows (rows ++ [r])
       ∧ r !! 4 = Some (get_SENSEX_ltp smart fromdate todate)).
Proof.
  unfold get_SENSEX_ltp. split.
  - intros resp rows r -> Hst Hdata. rewrite Hst, Hdata. cbn [andb].
    assert (truthy_data (DataRows (rows ++ [r])) = true) as ->
      by by destruct rows.
    rewrite last_snoc. split; [done|].
    intros Hlen. by rewrite lookup_ge_None_2 by lia.
  - destruct (smart _ 0) as [|[resp|]]; try done.
    destruct (status resp) eqn:Hst; [|done].
    destruct (data resp) as [|rows] eqn:Hdata; [done|]. cbn [andb].
    destruct (truthy_data (DataRows rows)); [|done].
    destruct (last rows) as [r|] eqn:Hlast; [|done].
    apply last_Some in Hlast as [rows' ->].
    destruct (r !! 4) as [c|] eqn:Hc; [|done]. cbn.
    intros _. exists resp, rows', r. done.
Qed.

Lemma get_SENSEX_ltp_value_witness :
  get_SENSEX_ltp smart_cut "2025-01-08 09:15" "2025-01-09 10:00" = CNull
  ∧ get_SENSEX_ltp smart_up "2025-01-08 09:15" "2025-01-09 10:00" = CNum 110.
Proof.
  destruct (get_SENSEX_ltp_value smart_cut "2025-01-08 09:15"
              "2025-01-09 10:00") as [Hcut _].
  destruct (get_SENSEX_ltp_value smart_up "2025-01-08 09:15"
              "2025-01-09 10:00") as [Hup _].
  split.
  - apply (Hcut {| status := true; data := DataRows [candle; take 4 candle] |}
             [candle] (take 4 candle)); try reflexivity. cbn. lia.
  - apply (Hup {| status := true; data := DataRows [candle] |} [] candle);
      reflexivity.
Defined.

(** ** The symbol master *)

Lemma rstrip_all_in chars line :
  Forall (λ c, c ∈ chars) (String.list_ascii_of_string line) →
  rstrip chars line = "".
Proof.
  induction line as [|c line IH]; cbn; [done|].
  intros [Hc Hall]%Forall_cons. rewrite IH by done. by rewrite decide_True.
Qed.

Lemma rstrip_kept chars kept c suffix :
  c ∉ chars →
  Forall (λ c, c ∈ chars) (String.list_ascii_of_string suffix) →
  rstrip chars (kept +:+ String c suffix) = kept +:+ String c "".
Proof.
  intros Hc Hall. induction kept as [|a kept IH].
  - change ("" +:+ String c suffix) with (String c suffix).
    cbn [rstrip]. rewrite rstrip_all_in by done. by rewrite decide_False.
  - change (String a kept +:+ String c suffix)
      with (String a (kept +:+ String c suffix)).
    change (String a kept +:+ String c "")
      with (String a (kept +:+ String c "")).
    cbn [rstrip]. rewrite IH.
    destruct kept; done.
Qed.

(** X13. [line.rstrip(",")] removes exactly the trailing commas: a line
    made of commas only becomes empty, and a line that ends, after some
    text whose last character is no comma, in commas only, becomes that
    text; commas inside the text stay.  The same holds for any set of
    characters to strip. *)
Theorem rstrip_removes_the_trailing_run chars line :
  (Forall (λ c, c ∈ chars) (String.list_ascii_of_string line) →
   rstrip chars line = "")
  ∧ (∀ kept c suffix,
       line = kept +:+ String c suffix → c ∉ chars →
       Forall (λ c, c ∈ chars) (String.list_ascii_of_string suffix) →
       rstrip chars line = kept +:+ String c ""
       ∧ rstrip chars (rstrip chars line) = rstrip chars line).
Proof.
  split; [apply rstrip_all_in|].
  intros kept c suffix -> Hc Hall.
  rewrite (rstrip_kept chars kept c suffix) by done. split; [done|].
  by apply (rstrip_kept chars kept c "").
Qed.

Lemma rstrip_removes_the_trailing_run_witness :
  rstrip [","%char] "BFO,800001,SENSEX,,," = "BFO,800001,SENSEX".
Proof.
  destruct (rstrip_removes_the_trailing_run [","%char]
              "BFO,800001,SENSEX,,,") as [_ H].
  apply (H "BFO,800001,SENSE" "X"%char ",,,"); [reflexivity| |].
  - intros Hin%list_elem_of_singleton. discriminate.
  - repeat constructor.
Defined.

Lemma multiple_of_100_spec (x : Q) :
  multiple_of_100 x = true ↔ ∃ k : Z, (x == inject_Z (100 * k))%Q.
Proof.
  unfold multiple_of_100. destruct x as [n d]. cbn [Qnum Qden].
  rewrite Z.eqb_eq, Z.mod_divide by lia. unfold Qeq. cbn. split.
  - intros [k Hk]. exists k. lia.
  - intros [k Hk]. exists k. lia.
Qed.

Lemma filter_bool_sublist {A} (f : A → bool) (l : list A) :
  List.filter f l `sublist_of` l.
Proof.
  induction l as [|x l IH]; cbn; [done|].
  destruct (f x); [by apply sublist_skip | by apply sublist_cons].
Qed.

Lemma elem_of_filter_bool {A} (f : A → bool) (l : list A) (x : A) :
  x ∈ List.filter f l ↔ x ∈ l ∧ f x = true.
Proof. rewrite !list_elem_of_In. apply filter_In. Qed.

(** X14. [get_option_symbols] keeps, in the order of the master, exactly
    the rows with symbol [BSXOPT], instrument [OPTIDX], an expiry text
    equal to the upper-cased ["%d-%b-%Y"] form of the date, and a strike
    that is a number (not NaN) between [start] and [end], both included,
    and an integer multiple of 100. *)
Theorem get_option_symbols_selects df expiry_date (start end_ : Q) :
  get_option_symbols df expiry_date start end_ `sublist_of` df
  ∧ ∀ r, r ∈ get_option_symbols df expiry_date start end_
         ↔ r ∈ df
           ∧ Symbol r = "BSXOPT" ∧ Instrument r = "OPTIDX"
           ∧ Expiry r = upper (strftime_d_b_Y expiry_date)
           ∧ ∃ x, StrikePrice r = Some x
                  ∧ (start <= x)%Q ∧ (x <= end_)%Q
                  ∧ ∃ k : Z, (x == inject_Z (100 * k))%Q.
Proof.
  unfold get_option_symbols. split.
  - etrans; apply filter_bool_sublist.
  - intros r. rewrite !elem_of_filter_bool.
    unfold is_index_option, strike_in_range.
    rewrite !andb_true_iff, !bool_decide_eq_true. split.
    + intros [[Hin [[Hs Hi] He]] Hstrike]. split_and!; try done.
      destruct (StrikePrice r) as [x|]; [|done].
      apply andb_true_iff in Hstrike as [[H1 H2]%andb_true_iff H3].
      exists x. split_and!; try done; try by apply Qle_bool_iff.
      by apply multiple_of_100_spec.
    + intros (Hin & Hs & Hi & He & x & -> & H1 & H2 & H3).
      split_and!; try done.
      rewrite !andb_true_iff. split_and!; try by apply Qle_bool_iff.
      by apply multiple_of_100_spec.
Qed.

Lemma get_option_symbols_selects_witness :
  MasterRow "BSXOPT" "OPTIDX" "09-JAN-2025" (Some (80000 # 1)) row_A
  ∈ get_option_symbols master_sample (Date 2025 1 9) (79000 # 1) (81000 # 1).
Proof.
  destruct (get_option_symbols_selects master_sample (Date 2025 1 9)
              (79000 # 1) (81000 # 1)) as [_ H].
  apply H. split_and!; try reflexivity.
  - by left.
  - exists (80000 # 1). split_and!; try reflexivity; try discriminate.
    exists 800%Z. reflexivity.
Defined.

Lemma upper_char_not_lower c : is_lower (upper_char c) = false.
Proof. destruct c as [[] [] [] [] [] [] [] []]; reflexivity. Qed.

Lemma upper_not_lower s c :
  c ∈ String.list_ascii_of_string (upper s) → is_lower c = false.
Proof.
  induction s as [|a s IH]; cbn.
  - by intros ?%elem_of_nil.
  - intros [->|Hin]%elem_of_cons; [apply upper_char_not_lower|auto].
Qed.

Lemma get_option_symbols_expiry df expiry_date (start end_ : Q) r :
  r ∈ get_option_symbols df expiry_date start end_ →
  Expiry r = upper (strftime_d_b_Y expiry_date).
Proof.
  unfold get_option_symbols. rewrite !elem_of_filter_bool.
  intros [[_ [_ He]%andb_true_iff] _]. by apply bool_decide_eq_true in He.
Qed.

(** X15. The expiry text is compared as written: no row whose expiry text
    holds a lower-case letter is ever selected, whatever the date and the
    range, because the date is formatted and then upper-cased. *)
Theorem get_option_symbols_needs_upper_case df expiry_date (start end_ : Q) r c :
  r ∈ get_option_symbols df expiry_date start end_ →
  c ∈ String.list_ascii_of_string (Expiry r) →
  is_lower c = false.
Proof.
  intros Hr Hc. apply get_option_symbols_expiry in Hr.
  rewrite Hr in Hc. by eapply upper_not_lower.
Qed.

Lemma get_option_symbols_needs_upper_case_witness :
  is_lower "J"%char = false
  ∧ get_option_symbols master_titlecase (Date 2025 1 9) (79000 # 1) (81000 # 1)
    = []
  ∧ is_today_SENSEX_expiry to_datetime_sample master_titlecase (Date 2025 1 9)
    = Returned (true, Date 2025 1 9).
Proof.
  split; [|split; reflexivity].
  apply (get_option_symbols_needs_upper_case master_sample (Date 2025 1 9)
           (79000 # 1) (81000 # 1)
           (MasterRow "BSXOPT" "OPTIDX" "09-JAN-2025" (Some (80000 # 1)) row_A)).
  - vm_compute. by left.
  - apply list_elem_of_lookup. by exists 3.
Defined.

(** X16. [is_today_SENSEX_expiry] raises exactly when the expiry text of
    some index-option row does not parse, wherever the row is and whatever
    its date would be; the rows of other symbols are not parsed.
    Otherwise it returns today's date with a flag that is true exactly
    when some index-option row expires today. *)
Theorem is_today_SENSEX_expiry_result to_datetime df today :
  (is_today_SENSEX_expiry to_datetime df today = Raised ValueError
   ↔ ∃ r, r ∈ df ∧ is_index_option r = true ∧ to_datetime (Expiry r) = None)
  ∧ (∀ flag d,
       is_today_SENSEX_expiry to_datetime df today = Returned (flag, d) →
       d = today
       ∧ (flag = true
          ↔ ∃ r, r ∈ df ∧ is_index_option r = true
                 ∧ to_datetime (Expiry r) = Some today)).
Proof.
  unfold is_today_SENSEX_expiry.
  destruct (mapM to_datetime (Expiry <$> List.filter is_index_option df))
    as [dates|] eqn:Hm.
  - split.
    + split; [done|]. intros (r & Hin & Hidx & Hnone). exfalso.
      assert (is_Some (mapM to_datetime
                (Expiry <$> List.filter is_index_option df))) as Hs by eauto.
      apply mapM_is_Some, Forall_forall with (x := Expiry r) in Hs.
      * cbn in Hs. rewrite Hnone in Hs. by destruct Hs.
      * apply list_elem_of_fmap_2. by apply elem_of_filter_bool.
    + intros flag d [= <- <-]. split; [done|].
      apply mapM_Some in Hm. rewrite bool_decide_eq_true. split.
      * intros Hin. apply list_elem_of_lookup in Hin as [i Hi].
        destruct (Forall2_lookup_r _ _ _ _ _ Hm Hi) as (text & Htext & Hparse).
        apply list_elem_of_lookup_2, list_elem_of_fmap in Htext
          as (r & -> & Hr).
        apply elem_of_filter_bool in Hr as [Hr Hidx]. eauto.
      * intros (r & Hin & Hidx & Hparse).
        assert (Expiry r ∈ Expiry <$> List.filter is_index_option df) as Hr
          by (apply list_elem_of_fmap_2; by apply elem_of_filter_bool).
        apply list_elem_of_lookup in Hr as [i Hi].
        destruct (Forall2_lookup_l _ _ _ _ _ Hm Hi) as (d & Hd & Hparse').
        rewrite Hparse in Hparse'. injection Hparse' as <-.
        by eapply list_elem_of_lookup_2.
  - split; [|done]. split; [|done]. intros _.
    apply mapM_None, Exists_exists in Hm as (text & Hin & Hnone).
    apply list_elem_of_fmap in Hin as (r & -> & Hr).
    apply elem_of_filter_bool in Hr as [Hr Hidx]. eauto.
Qed.

Lemma is_today_SENSEX_expiry_result_witness :
  Date 2025 1 9 = Date 2025 1 9
  ∧ (true = true
     ↔ ∃ r, r ∈ master_sample ∧ is_index_option r = true
            ∧ to_datetime_sample (Expiry r) = Some (Date 2025 1 9)).
Proof.
  destruct (is_today_SENSEX_expiry_result to_datetime_sample master_sample
              (Date 2025 1 9)) as [_ H].
  apply (H true (Date 2025 1 9)). reflexivity.
Defined.

(** ** The worker pool, under every schedule *)

Lemma coordinate_scheduling args σ σ' :
  coordinate args σ = Some σ' →
  queue σ' = queue σ ∧ running σ' = running σ ∧ futures σ' = futures σ.
Proof.
  unfold coordinate. intros H.
  destruct (coord σ) as [|symbol|symbol err|ex]; [| | |done].
  - case_decide; [by injection H as <-|].
    destruct (futures σ !! next σ) as [[[[symbol dat] err]|e]|]; [| |done].
    + destruct (truthy_bytes dat); by injection H as <-.
    + by injection H as <-.
  - by injection H as <-.
  - by injection H as <-.
Qed.

Lemma submitted_sched_inv args : sched_inv args (submitted args).
Proof.
  exists 0. cbn. split_and!; try done; try lia.
  - f_equal. lia.
  - constructor.
  - intros i ?%elem_of_nil. done.
  - intros i [r Hr]. by rewrite lookup_empty in Hr.
Qed.

Lemma exec_sched_inv to_excel args a σ σ' :
  sched_inv args σ → exec to_excel args a σ = Some σ' → sched_inv args σ'.
Proof.
  intros (j & Hj & Hq & Hnd & Hrun & Hdone & Hfut) Hstep.
  destruct a as [|i|]; cbn in Hstep.
  - destruct (queue σ) as [|i q] eqn:Hqueue; [done|].
    case_decide; [|done]. injection Hstep as <-.
    assert (j < length args) as Hlt.
    { destruct (decide (j < length args)); [done|].
      replace (length args - j) with 0 in Hq by lia. done. }
    replace (length args - j) with (S (length args - S j)) in Hq by lia.
    cbn [seq] in Hq. injection Hq as -> ->.
    exists (S j). cbn. split_and!; try done.
    + apply NoDup_app. split_and!; [done| |apply NoDup_singleton].
      intros i Hi ->%list_elem_of_singleton. apply Hrun in Hi. lia.
    + intros i [Hi| ->%list_elem_of_singleton]%elem_of_app.
      * destruct (Hrun i Hi). split; [lia|done].
      * split; [lia|]. destruct (futures σ !! j) eqn:Hf; [|done].
        assert (j < j) by (apply Hfut; eauto). lia.
    + intros i Hi Hni. apply Hdone.
      * destruct (decide (i = j)) as [->|]; [|lia].
        exfalso. apply Hni, elem_of_app. right. by left.
      * intros Hin. apply Hni, elem_of_app. by left.
    + intros i Hi. apply Hfut in Hi. lia.
  - case_decide as Hin; [|done].
    destruct (args !! i) as [a|]; [|done]. injection Hstep as <-.
    exists j. cbn. split_and!; try done.
    + by apply NoDup_filter.
    + intros i' [Hne Hi']%list_elem_of_filter.
      destruct (Hrun i' Hi'). split; [done|].
      by rewrite lookup_insert_ne.
    + intros i' Hi' Hni. destruct (decide (i = i')) as [<-|Hne].
      * rewrite lookup_insert_eq. eauto.
      * rewrite lookup_insert_ne by done. apply Hdone; [done|].
        intros Hin'. apply Hni, list_elem_of_filter. split; [congruence|done].
    + intros i' Hi'. destruct (decide (i = i')) as [<-|Hne].
      * by apply Hrun.
      * rewrite lookup_insert_ne in Hi' by done. by apply Hfut.
  - destruct (coordinate_scheduling _ _ _ Hstep) as (Hq' & Hr' & Hf').
    exists j. rewrite Hq', Hr', Hf'. done.
Qed.

Lemma reachable_sched_inv to_excel args σ :
  reachable to_excel args σ → sched_inv args σ.
Proof.
  intros [sched Hrun].
  assert (∀ σ0, sched_inv args σ0 →
                execs to_excel args sched σ0 = Some σ → sched_inv args σ)
    as H; [|by eapply H; [apply submitted_sched_inv|]].
  clear Hrun. induction sched as [|a sched IH]; intros σ0 Hinv Hrun;
    cbn in Hrun.
  - by injection Hrun as <-.
  - destruct (exec to_excel args a σ0) as [σ1|] eqn:Hstep; [|done].
    eapply IH; [|done]. by eapply exec_sched_inv.
Qed.

(** X17. Each call of [download_symbol] is run once: in every state a
    schedule reaches, every task is in exactly one of three places (still
    queued, running, or done), no call is queued or running twice, at most
    [MAX_WORKERS] calls are running, a worker only ever finishes a call
    whose future is not yet set, and a future that is set holds the result
    of its own call. *)
Theorem each_call_runs_once to_excel args σ :
  reachable to_excel args σ →
  (∀ i, i < length args →
        i ∈ queue σ ∨ i ∈ running σ ∨ is_Some (futures σ !! i))
  ∧ (∀ i, i ∈ queue σ → (i ∉ running σ) ∧ futures σ !! i = None)
  ∧ (∀ i, i ∈ running σ → futures σ !! i = None)
  ∧ NoDup (queue σ ++ running σ)
  ∧ length (running σ) ≤ MAX_WORKERS
  ∧ (∀ i σ', exec to_excel args (Finish i) σ = Some σ' →
             futures σ !! i = None)
  ∧ (∀ i r, futures σ !! i = Some r →
            ∃ a, args !! i = Some a ∧ r = (download_symbol to_excel a).1).
Proof.
  intros Hreach.
  pose proof (reachable_inv _ _ _ Hreach) as (_ & Hpool & Hfuts & _).
  apply reachable_sched_inv in Hreach
    as (j & Hj & Hq & Hnd & Hrun & Hdone & Hfut).
  assert (∀ i, i ∈ queue σ ↔ j ≤ i < length args) as Hqueue.
  { intros i. rewrite Hq, elem_of_seq. lia. }
  split_and!.
  - intros i Hi. destruct (decide (i < j)) as [Hlt|Hge].
    + destruct (decide (i ∈ running σ)); [auto|]. right. right.
      by apply Hdone.
    + left. apply Hqueue. lia.
  - intros i Hi%Hqueue. split.
    + intros Hin. apply Hrun in Hin. lia.
    + destruct (futures σ !! i) eqn:Hf; [|done].
      assert (i < j) by (apply Hfut; eauto). lia.
  - intros i Hi. by apply Hrun.
  - apply NoDup_app. split_and!; [rewrite Hq; apply NoDup_seq| |done].
    intros i Hi%Hqueue Hin. apply Hrun in Hin. lia.
  - done.
  - intros i σ' Hstep. cbn in Hstep. case_decide as Hin; [|done].
    by apply Hrun.
  - intros i r Hr. apply Hfuts in Hr. unfold results, map_download in Hr.
    rewrite list_lookup_fmap in Hr.
    destruct (args !! i) as [a|]; [|done]. injection Hr as <-. eauto.
Qed.

Lemma each_call_runs_once_witness :
  ∃ σ, execs excel_ok args_ABC [Take; Take; Finish 1] (submitted args_ABC)
       = Some σ
       ∧ queue σ = [2] ∧ running σ = [0] ∧ is_Some (futures σ !! 1)
       ∧ NoDup (queue σ ++ running σ).
Proof.
  destruct (execs excel_ok args_ABC [Take; Take; Finish 1] (submitted args_ABC))
    as [σ|] eqn:Hrun; [|by vm_compute in Hrun].
  exists σ. split; [done|].
  destruct (each_call_runs_once excel_ok args_ABC σ) as (_ & _ & _ & Hnd & _);
    [by eexists|].
  vm_compute in Hrun. injection Hrun as <-.
  split_and!; [reflexivity | reflexivity | by eexists | exact Hnd].
Defined.

Lemma exec_appends to_excel args a σ σ' :
  exec to_excel args a σ = Some σ' →
  success_list (run_state σ) `prefix_of` success_list (run_state σ')
  ∧ failed_list (run_state σ) `prefix_of` failed_list (run_state σ')
  ∧ failed_details (run_state σ) `prefix_of` failed_details (run_state σ')
  ∧ zip_buf (run_state σ) `prefix_of` zip_buf (run_state σ').
Proof.
  intros Hstep. destruct a as [|i|]; cbn in Hstep.
  - destruct (queue σ); [done|]. case_decide; [|done].
    by injection Hstep as <-.
  - case_decide; [|done]. destruct (args !! i); [|done].
    by injection Hstep as <-.
  - unfold coordinate in Hstep.
    destruct (coord σ) as [|symbol|symbol err|ex]; [| | |done].
    + case_decide; [by injection Hstep as <-|].
      destruct (futures σ !! next σ) as [[[[symbol dat] err]|e]|]; [| |done].
      * destruct (truthy_bytes dat); injection Hstep as <-; cbn;
          split_and!; try done; by apply prefix_app_r.
      * by injection Hstep as <-.
    + injection Hstep as <-. cbn. split_and!; try done; by apply prefix_app_r.
    + injection Hstep as <-. cbn. split_and!; try done; by apply prefix_app_r.
Qed.

(** X18. The globals and the archive only grow: along every schedule, from
    any state, what [success_list], [failed_list], [failed_details] and the
    archive held stays where it was and what is recorded is appended after
    it; nothing is removed, reordered or overwritten. *)
Theorem recorded_results_only_grow to_excel args sched σ σ' :
  execs to_excel args sched σ = Some σ' →
  success_list (run_state σ) `prefix_of` success_list (run_state σ')
  ∧ failed_list (run_state σ) `prefix_of` failed_list (run_state σ')
  ∧ failed_details (run_state σ) `prefix_of` failed_details (run_state σ')
  ∧ zip_buf (run_state σ) `prefix_of` zip_buf (run_state σ').
Proof.
  revert σ. induction sched as [|a sched IH]; intros σ Hrun; cbn in Hrun.
  - by injection Hrun as <-.
  - destruct (exec to_excel args a σ) as [σ1|] eqn:Hstep; [|done].
    destruct (exec_appends _ _ _ _ _ Hstep) as (H1 & H2 & H3 & H4).
    destruct (IH _ Hrun) as (H1' & H2' & H3' & H4').
    split_and!; by etrans.
Qed.

Lemma recorded_results_only_grow_witness :
  ∃ σ σ',
    execs excel_ok args_ABC
      [Take; Take; Take; Finish 2; Finish 0; Coordinate; Coordinate]
      (submitted args_ABC) = Some σ
    ∧ execs excel_ok args_ABC [Finish 1; Coordinate; Coordinate] σ = Some σ'
    ∧ success_list (run_state σ) `prefix_of` success_list (run_state σ').
Proof.
  destruct (execs excel_ok args_ABC
              [Take; Take; Take; Finish 2; Finish 0; Coordinate; Coordinate]
              (submitted args_ABC)) as [σ|] eqn:Hrun;
    [|by vm_compute in Hrun].
  destruct (execs excel_ok args_ABC [Finish 1; Coordinate; Coordinate] σ)
    as [σ'|] eqn:Hrun'.
  - exists σ, σ'. split_and!; [done|done|].
    by apply (recorded_results_only_grow excel_ok args_ABC
                [Finish 1; Coordinate; Coordinate] σ σ').
  - exfalso. vm_compute in Hrun. injection Hrun as <-.
    by vm_compute in Hrun'.
Defined.

Lemma exec_work to_excel args a σ σ' :
  pool_inv to_excel args σ → exec to_excel args a σ = Some σ' →
  work (length args) σ' < work (length args) σ.
Proof.
  intros (_ & _ & _ & Hco) Hstep. unfold work.
  destruct a as [|i|]; cbn in Hstep.
  - destruct (queue σ) as [|i q]; [done|]. case_decide; [|done].
    injection Hstep as <-. cbn. rewrite length_app. cbn. lia.
  - case_decide as Hin; [|done]. destruct (args !! i); [|done].
    injection Hstep as <-. cbn.
    assert (length (filter (λ j, j ≠ i) (running σ)) < length (running σ)).
    { apply (length_filter_lt _ _ i); [done|]. by intros H. }
    lia.
  - destruct (coordinate_scheduling _ _ _ Hstep) as (-> & -> & _).
    unfold coordinate in Hstep. unfold coordinator_inv in Hco.
    destruct (coord σ) as [|symbol|symbol err|ex]; [| | |done].
    + case_decide; [injection Hstep as <-; cbn; lia|].
      destruct (futures σ !! next σ) as [[[[symbol dat] err]|e]|]; [| |done].
      * destruct (truthy_bytes dat); injection Hstep as <-; cbn; lia.
      * injection Hstep as <-. cbn. lia.
    + destruct Hco as (os & o & _ & Hres & _).
      apply lookup_lt_Some in Hres. rewrite length_results in Hres.
      injection Hstep as <-. cbn. lia.
    + destruct Hco as (os & o & _ & Hres & _).
      apply lookup_lt_Some in Hres. rewrite length_results in Hres.
      injection Hstep as <-. cbn. lia.
Qed.

Lemma execs_work to_excel args sched σ σ' :
  pool_inv to_excel args σ → execs to_excel args sched σ = Some σ' →
  length sched + work (length args) σ' ≤ work (length args) σ.
Proof.
  revert σ. induction sched as [|a sched IH]; intros σ Hinv Hrun; cbn in Hrun.
  - injection Hrun as <-. cbn [length]. lia.
  - destruct (exec to_excel args a σ) as [σ1|] eqn:Hstep; [|done].
    pose proof (exec_work _ _ _ _ _ Hinv Hstep).
    pose proof (IH σ1 (exec_inv _ _ _ _ _ Hinv Hstep) Hrun).
    cbn [length]. lia.
Qed.

(** X19. The scheduling of the pool does not stall on its own.  A schedule
    over [n] tasks has at most [4 n + 2] actions: each call is taken once
    and finished at most once, and the main thread handles each result in
    at most two moves.  In every state a schedule reaches with the main
    thread still in the loop, either the main thread can move, or it waits
    for the result of call [next] at line 303, and then that call is
    running on a worker, or it is still queued and either a worker is free
    to take the call at the head of the queue or all [MAX_WORKERS] workers
    are running earlier calls.  So the main thread is only ever kept
    waiting by a call of [download_symbol] that is running and has not
    returned; nothing here says that such a call returns. *)
Theorem main_thread_waits_for_a_running_call to_excel args sched σ :
  execs to_excel args sched (submitted args) = Some σ →
  length sched ≤ 4 * length args + 2
  ∧ ((∀ ex, coord σ ≠ Finished ex) →
     is_Some (coordinate args σ)
     ∨ (coordinate args σ = None
        ∧ coord σ = AtNext ∧ next σ < length args
        ∧ futures σ !! next σ = None
        ∧ (next σ ∈ running σ
           ∨ (next σ ∈ queue σ
              ∧ (is_Some (exec to_excel args Take σ)
                 ∨ (length (running σ) = MAX_WORKERS
                    ∧ ∀ i, i ∈ running σ →
                           i < next σ ∧ futures σ !! i = None)))))).
Proof.
  intros Hrun.
  assert (reachable to_excel args σ) as Hreach by by exists sched.
  split.
  - pose proof (execs_work _ _ _ _ _ (submitted_inv to_excel args) Hrun) as H.
    unfold work in H at 2. cbn in H. rewrite length_seq in H. lia.
  - intros Hloop.
    pose proof (reachable_inv _ _ _ Hreach) as (_ & Hworkers & _ & Hco).
    apply reachable_sched_inv in Hreach
      as (j & Hj & Hq & Hnd & Hrunning & Hdone & Hfut).
    unfold coordinator_inv in Hco.
    destruct (coord σ) as [|symbol|symbol err|ex] eqn:Hc.
    + destruct Hco as (os & _ & Hle & _).
      destruct (decide (next σ = length args)) as [Hn|Hn].
      { left. unfold coordinate. rewrite Hc, decide_True by done. eauto. }
      destruct (futures σ !! next σ) as [r|] eqn:Hf.
      { left. unfold coordinate. rewrite Hc. rewrite decide_False by done.
        match goal with
        | |- context [match ?x with Some _ => _ | None => _ end] =>
          replace x with (Some r) by (symmetry; exact Hf)
        end.
        destruct r as [[[symbol dat] err]|e]; [|eauto].
        destruct (truthy_bytes dat); eauto. }
      right. split_and!; [|done|lia|done|].
      { unfold coordinate. rewrite Hc. rewrite decide_False by done.
        match goal with
        | |- context [match ?x with Some _ => _ | None => _ end] =>
          replace x with (@None (result outcome)) by (symmetry; exact Hf)
        end.
        done. }
      destruct (decide (next σ < j)) as [Hlt|Hge].
      * left. destruct (decide (next σ ∈ running σ)) as [Hin|Hnin]; [done|].
        destruct (Hdone _ Hlt Hnin) as [r Hr]. congruence.
      * right. split; [rewrite Hq; apply elem_of_seq; lia|].
        destruct (decide (length (running σ) < MAX_WORKERS)) as [Hfree|Hbusy].
        -- left. cbn [exec]. rewrite Hq.
           replace (length args - j) with (S (length args - S j)) by lia.
           cbn [seq]. rewrite decide_True by done. eauto.
        -- right. split; [lia|]. intros i Hi.
           destruct (Hrunning i Hi). split; [lia|done].
    + left. unfold coordinate. rewrite Hc. eauto.
    + left. unfold coordinate. rewrite Hc. eauto.
    + by destruct (Hloop ex).
Qed.

Lemma main_thread_waits_for_a_running_call_witness :
  ∃ σ, execs excel_ok args_ABC [Take; Take; Take] (submitted args_ABC) = Some σ
       ∧ coordinate args_ABC σ = None
       ∧ next σ ∈ running σ
       ∧ queue σ = [].
Proof.
  destruct (execs excel_ok args_ABC [Take; Take; Take] (submitted args_ABC))
    as [σ|] eqn:Hrun; [|by vm_compute in Hrun].
  exists σ. split; [done|].
  destruct (main_thread_waits_for_a_running_call excel_ok args_ABC
              [Take; Take; Take] σ Hrun) as [_ Hwait].
  vm_compute in Hrun. injection Hrun as <-.
  destruct Hwait as [[σ' Hmove]|(Hblocked & _ & _ & _ & [Hin|[Hq _]])].
  - done.
  - by vm_compute in Hmove.
  - split_and!; [exact Hblocked | exact Hin | reflexivity].
  - by apply elem_of_nil in Hq.
Defined.
